(** * commit-it: the message validation / parsing / formatting engine

    A shallow embedding of [src/core/validator.js], [src/core/formatter.js],
    the parts of [src/config/defaults.js] they read, the checks of the
    prompts of [src/prompts/questions.js] and the reformatting done by
    [src/prompts/interactive.js], followed by the properties of the
    specification that concern them and by further properties of the code.

    Conventions of the embedding.
    - A JavaScript string is the list of its code units.  The development
      covers the code units 0..255 (ISO-8859-1), carried by [ascii]; white
      space, line terminators, [\w] and the case mappings are ECMAScript's on
      that range.
    - [null] / [undefined] are [None]; a value used in a JavaScript condition
      is tested with [truthy].
    - A call that can raise [TypeError] returns a [result]. *)

From Stdlib Require Import Ascii String List Arith Bool Lia.
From Stdlib Require Import Numbers.DecimalString Sorting.Permutation.
Import ListNotations.

Set Implicit Arguments.

(* ================================================================== *)
(** ** JavaScript strings                                              *)
(* ================================================================== *)

Module JS.

Definition str := list ascii.

(** String literals. *)
Definition js (s : string) : str := list_ascii_of_string s.

Definition code (c : ascii) : nat := nat_of_ascii c.

Definition between (lo hi n : nat) : bool := (lo <=? n) && (n <=? hi).

(** LineTerminator: LF and CR (U+2028 and U+2029 lie outside the range). *)
Definition isLineTerminator (c : ascii) : bool :=
  (code c =? 10) || (code c =? 13).

(** WhiteSpace or LineTerminator: what [\s] matches and [trim] removes:
    TAB, LF, VT, FF, CR, SP and NBSP. *)
Definition isSpace (c : ascii) : bool :=
  between 9 13 (code c) || (code c =? 32) || (code c =? 160).

(** [\w] is [A-Za-z0-9_]. *)
Definition isWord (c : ascii) : bool :=
  between 65 90 (code c) || between 97 122 (code c)
  || between 48 57 (code c) || (code c =? 95).

(** [[\w-]]. *)
Definition isWordOrHyphen (c : ascii) : bool :=
  isWord c || (code c =? 45).

Definition isUpperAscii (c : ascii) : bool := between 65 90 (code c).

(** [String.prototype.toLowerCase] on one code unit: A-Z, and the Latin-1
    capitals U+00C0..U+00DE except the multiplication sign U+00D7. *)
Definition toLowerCase_char (c : ascii) : ascii :=
  let n := code c in
  if between 65 90 n || (between 192 222 n && negb (n =? 215))
  then ascii_of_nat (n + 32) else c.

Definition toLowerCase (s : str) : str := map toLowerCase_char s.

(** [String.prototype.toUpperCase] on a one-character string, as the code
    units of the result: three characters of the range leave it (micro
    sign, sharp s, y with diaeresis). *)
Definition toUpperCase_char (c : ascii) : list nat :=
  let n := code c in
  if between 97 122 n || (between 224 254 n && negb (n =? 247))
  then [n - 32]
  else if n =? 181 then [924]
  else if n =? 223 then [83; 83]
  else if n =? 255 then [376]
  else [n].

(** The [Canonicalize] of a regular expression with the [i] flag and
    without the [u] flag: the upper case, kept only when it is one code
    unit and does not map a non-ASCII character into ASCII.  The two
    characters whose upper case leaves the range stand for themselves: no
    other character of the range shares their upper case. *)
Definition canonicalize (c : ascii) : ascii :=
  match toUpperCase_char c with
  | [u] => if (128 <=? code c) && (u <? 128) then c
           else if u <? 256 then ascii_of_nat u else c
  | _ => c
  end.

Definition eqb_ci (a b : ascii) : bool :=
  Ascii.eqb (canonicalize a) (canonicalize b).

(** [a === b] on strings. *)
Fixpoint str_eqb (a b : str) : bool :=
  match a, b with
  | [], [] => true
  | x :: a', y :: b' => Ascii.eqb x y && str_eqb a' b'
  | _, _ => false
  end.

(** A string in a condition: the empty string is falsy. *)
Definition nonEmpty (s : str) : bool :=
  match s with [] => false | _ :: _ => true end.

(** [null] and the empty string are falsy. *)
Definition truthy (o : option str) : bool :=
  match o with Some s => nonEmpty s | None => false end.

(** [x || null]. *)
Definition orNull (s : str) : option str :=
  if nonEmpty s then Some s else None.

Fixpoint dropWhile (p : ascii -> bool) (s : str) : str :=
  match s with
  | [] => []
  | c :: s' => if p c then dropWhile p s' else s
  end.

(** The longest prefix of [s] made of [p] characters, and the rest. *)
Fixpoint span (p : ascii -> bool) (s : str) : str * str :=
  match s with
  | [] => ([], [])
  | c :: s' =>
      if p c then let (a, b) := span p s' in (c :: a, b) else ([], s)
  end.

Definition trimStart (s : str) : str := dropWhile isSpace s.
Definition trimEnd (s : str) : str := rev (dropWhile isSpace (rev s)).
Definition trim (s : str) : str := trimEnd (trimStart s).

(** [s.split(sep)] for a one-character separator. *)
Fixpoint split (sep : ascii) (s : str) : list str :=
  match s with
  | [] => [[]]
  | c :: s' =>
      if Ascii.eqb c sep then [] :: split sep s'
      else match split sep s' with
           | l :: ls => (c :: l) :: ls
           | [] => [[c]]
           end
  end.

(** [parts.join(sep)]. *)
Fixpoint join (sep : str) (parts : list str) : str :=
  match parts with
  | [] => []
  | p :: rest =>
      match rest with
      | [] => p
      | _ :: _ => p ++ sep ++ join sep rest
      end
  end.

Fixpoint startsWith (p s : str) : bool :=
  match p, s with
  | [], _ => true
  | _ :: _, [] => false
  | a :: p', b :: s' => Ascii.eqb a b && startsWith p' s'
  end.

(** [startsWith] under the [i] flag. *)
Fixpoint startsWith_ci (p s : str) : bool :=
  match p, s with
  | [], _ => true
  | _ :: _, [] => false
  | a :: p', b :: s' => eqb_ci a b && startsWith_ci p' s'
  end.

Fixpoint includes (p s : str) : bool :=
  startsWith p s ||
  match s with
  | [] => false
  | _ :: s' => includes p s'
  end.

Definition endsWith_char (c : ascii) (s : str) : bool :=
  match rev s with
  | d :: _ => Ascii.eqb c d
  | [] => false
  end.

(** [arr.findIndex(p)]; [None] is -1. *)
Fixpoint findIndex (A : Type) (p : A -> bool) (l : list A) : option nat :=
  match l with
  | [] => None
  | x :: l' =>
      if p x then Some 0
      else match findIndex p l' with
           | Some k => Some (S k)
           | None => None
           end
  end.

(** A number in a template literal. *)
Definition ofNat (n : nat) : str :=
  js (NilZero.string_of_uint (Nat.to_uint n)).

Definition nl : ascii := "010"%char.
Definition sp : ascii := " "%char.
Definition dquote : ascii := "034"%char.

End JS.

Import JS.

(* ================================================================== *)
(** ** Exceptions                                                      *)
(* ================================================================== *)

Module Result.

(** The one exception the engine can raise: a property read on
    [undefined]. *)
Inductive exn : Type := TypeError.

Inductive result (A : Type) : Type :=
| Ok (a : A)
| Throw (e : exn).

Arguments Throw {A} e.

Definition bind (A B : Type) (m : result A) (k : A -> result B) : result B :=
  match m with
  | Ok a => k a
  | Throw e => Throw e
  end.

Definition returns (A : Type) (m : result A) : Prop := exists a, m = Ok a.

End Result.

Import Result.

Notation "x <- m ;; k" := (Result.bind m (fun x => k))
  (at level 61, m at next level, right associativity).

(* ================================================================== *)
(** ** src/config/defaults.js                                          *)
(* ================================================================== *)

Module Defaults.

(** An entry of [defaults.types]; [name] and [emoji] are display texts
    that the engine never reads. *)
Record TypeEntry : Type := { value : str }.

Definition types : list TypeEntry :=
  map (fun s => {| value := js s |})
    ["feat"; "fix"; "docs"; "style"; "refactor"; "perf"; "test"; "build";
     "ci"; "chore"; "revert"]%string.

(** [defaults.rules]. *)
Record Rules : Type := {
  maxSubjectLength : nat;
  minSubjectLength : nat;
  maxLineLength : nat;
  enforceImperative : bool;
  subjectCase : str;
  allowBreakingChanges : list str
}.

Definition rules : Rules := {|
  maxSubjectLength := 72;
  minSubjectLength := 3;
  maxLineLength := 100;
  enforceImperative := true;
  subjectCase := js "lowercase";
  allowBreakingChanges := [js "feat"; js "fix"]
|}.

End Defaults.


(* ================================================================== *)
(** ** src/core/validator.js                                           *)
(* ================================================================== *)

Module Validator.

(** The object given to the constructor: each key of the rules, and the
    [types] key, is absent or present. *)
Record Overrides : Type := {
  o_maxSubjectLength : option nat;
  o_minSubjectLength : option nat;
  o_maxLineLength : option nat;
  o_enforceImperative : option bool;
  o_subjectCase : option str;
  o_allowBreakingChanges : option (list str);
  o_types : option (list Defaults.TypeEntry)
}.

(** [{}], the constructor's default argument. *)
Definition noOverrides : Overrides :=
  {| o_maxSubjectLength := None; o_minSubjectLength := None;
     o_maxLineLength := None; o_enforceImperative := None;
     o_subjectCase := None; o_allowBreakingChanges := None;
     o_types := None |}.

(** [this.config]: the keys of [defaults.rules], and a [types] key when the
    overrides brought one. *)
Record Config : Type := {
  maxSubjectLength : nat;
  minSubjectLength : nat;
  maxLineLength : nat;
  enforceImperative : bool;
  subjectCase : str;
  allowBreakingChanges : list str;
  types : option (list Defaults.TypeEntry)
}.

Definition override (A : Type) (d : A) (o : option A) : A :=
  match o with Some x => x | None => d end.

(** [{ ...defaults.rules, ...config }]. *)
Definition spread (d : Defaults.Rules) (o : Overrides) : Config :=
  {| maxSubjectLength :=
       override (Defaults.maxSubjectLength d) (o_maxSubjectLength o);
     minSubjectLength :=
       override (Defaults.minSubjectLength d) (o_minSubjectLength o);
     maxLineLength := override (Defaults.maxLineLength d) (o_maxLineLength o);
     enforceImperative :=
       override (Defaults.enforceImperative d) (o_enforceImperative o);
     subjectCase := override (Defaults.subjectCase d) (o_subjectCase o);
     allowBreakingChanges :=
       override (Defaults.allowBreakingChanges d) (o_allowBreakingChanges o);
     types := o_types o |}.

(** The fields of a [Validator] instance. *)
Record t : Type := {
  config : Config;
  validTypes : list str
}.

(** [constructor(config = {})]. *)
Definition new (o : Overrides) : t :=
  {| config := spread Defaults.rules o;
     validTypes := map Defaults.value Defaults.types |}.

Record ValidationResult : Type := {
  valid : bool;
  errors : list str
}.

(** *** The error texts *)

Definition errEmpty : str := js "Commit message cannot be empty".
Definition errHeaderFormat : str :=
  js "Header must follow format: type(scope): subject".
Definition errInvalidType (type : str) (validTypes : list str) : str :=
  js "Invalid type " ++ [dquote] ++ type ++ [dquote]
  ++ js ". Must be one of: " ++ join (js ", ") validTypes.
Definition errTypeCase : str := js "Type must be lowercase".
Definition errTooLong (len max : nat) : str :=
  js "Subject is too long (" ++ ofNat len ++ js " chars). Maximum is "
  ++ ofNat max.
Definition errTooShort (len min : nat) : str :=
  js "Subject is too short (" ++ ofNat len ++ js " chars). Minimum is "
  ++ ofNat min.
Definition errPeriod : str := js "Subject must not end with a period".
Definition errImperative : str :=
  js "Subject must use imperative mood (e.g., " ++ [dquote] ++ js "add"
  ++ [dquote] ++ js " not " ++ [dquote] ++ js "adds" ++ [dquote] ++ js " or "
  ++ [dquote] ++ js "added" ++ [dquote] ++ js ")".
Definition errSubjectCase : str :=
  js "Subject must start with lowercase letter".
Definition errBodyLine (lineNo len max : nat) : str :=
  js "Body line " ++ ofNat lineNo ++ js " is too long (" ++ ofNat len
  ++ js " chars). Maximum is " ++ ofNat max.

(** *** The header pattern *)

Definition noLineTerminator (s : str) : bool :=
  forallb (fun c => negb (isLineTerminator c)) s.

(** [\s*(.+)$] on what follows the colon.  The white space is taken
    greedily; [.+] then needs the rest to be non-empty and free of line
    terminators up to the end of the input.  When nothing is left after the
    white space, backtracking gives its last character to [.+]. *)
Definition matchSubject (r : str) : option str :=
  let (w, t) := span isSpace r in
  match t with
  | _ :: _ => if noLineTerminator t then Some t else None
  | [] =>
      match rev w with
      | c :: _ => if isLineTerminator c then None else Some [c]
      | [] => None
      end
  end.

(** The groups of a match: the type, the scope between the parentheses when
    the optional group took part, and the subject. *)
Definition Groups : Type := (str * option str * str)%type.

(** [/^(\w+)(\(([\w-]+)\))?:\s*(.+)$/] on a header.  [validateHeader] writes
    the pattern without the inner group of the scope, which changes no match.
    [\w+] must take every word character: it is followed by a parenthesis or
    a colon.  The optional group, once entered at a parenthesis, cannot be
    skipped, since a colon would then be needed at that parenthesis. *)
Definition conventionalPattern (header : str) : option Groups :=
  let (type, r1) := span isWord header in
  match type with
  | [] => None
  | _ :: _ =>
      match r1 with
      | "("%char :: r2 =>
          let (scope, r3) := span isWordOrHyphen r2 in
          match scope, r3 with
          | _ :: _, ")"%char :: ":"%char :: r4 =>
              match matchSubject r4 with
              | Some subject => Some (type, Some scope, subject)
              | None => None
              end
          | _, _ => None
          end
      | ":"%char :: r4 =>
          match matchSubject r4 with
          | Some subject => Some (type, None, subject)
          | None => None
          end
      | _ => None
      end
  end.

(** *** isImperative *)

(** [/^(w1|w2|w3)\s/i]: one of the words, then a white space. *)
Definition testInflection (words : list str) (subject : str) : bool :=
  existsb
    (fun w =>
       startsWith_ci w subject &&
       match skipn (length w) subject with
       | c :: _ => isSpace c
       | [] => false
       end)
    words.

Definition nonImperativePatterns : list (list str) :=
  map (map js)
    [ ["adds"; "adding"; "added"];
      ["fixes"; "fixing"; "fixed"];
      ["updates"; "updating"; "updated"];
      ["removes"; "removing"; "removed"];
      ["creates"; "creating"; "created"];
      ["implements"; "implementing"; "implemented"];
      ["changes"; "changing"; "changed"] ]%string.

Definition isImperative (subject : str) : bool :=
  negb (existsb (fun pattern => testInflection pattern subject)
          nonImperativePatterns).

(** *** toImperative *)

(** [/^word\s/i] matches: the word, in any case, then a white space. *)
Definition leads (word subject : str) : bool :=
  startsWith_ci word subject &&
  match skipn (length word) subject with
  | c :: _ => isSpace c
  | [] => false
  end.

(** [s.replace(/^word\s/i, replacement)]. *)
Definition replaceLead (word replacement s : str) : str :=
  if leads word s then replacement ++ skipn (length word + 1) s else s.

(** The words and replacements of the chain of [replace] calls, in its
    order. *)
Definition imperativeRewrites : list (str * str) :=
  map (fun e => (js (fst e), js (snd e)))
    [ ("adds", "add "); ("adding", "add "); ("added", "add ");
      ("fixes", "fix "); ("fixing", "fix "); ("fixed", "fix ");
      ("updates", "update "); ("updating", "update ");
      ("updated", "update ");
      ("removes", "remove "); ("removing", "remove ");
      ("removed", "remove ");
      ("creates", "create "); ("creating", "create ");
      ("created", "create ");
      ("implements", "implement "); ("implementing", "implement ");
      ("implemented", "implement ");
      ("changes", "change "); ("changing", "change ");
      ("changed", "change ") ]%string.

Definition toImperative (subject : str) : str :=
  fold_left (fun s e => replaceLead (fst e) (snd e) s) imperativeRewrites
    subject.

(** *** validateSubject, validateBody, validateHeader, validate *)

Definition validateSubject (v : t) (subject : str) : result (list str) :=
  let c := config v in
  let tooLong :=
    if maxSubjectLength c <? length subject
    then [errTooLong (length subject) (maxSubjectLength c)] else [] in
  let tooShort :=
    if length subject <? minSubjectLength c
    then [errTooShort (length subject) (minSubjectLength c)] else [] in
  let period :=
    if endsWith_char "."%char subject then [errPeriod] else [] in
  let mood :=
    if enforceImperative c
    then if negb (isImperative subject) then [errImperative] else []
    else [] in
  case <-
    (if str_eqb (subjectCase c) (js "lowercase")
     then match subject with
          | [] => Throw TypeError
          | c0 :: _ =>
              Ok (if negb (Ascii.eqb c0 (toLowerCase_char c0))
                  then [errSubjectCase] else [])
          end
     else Ok []) ;;
  Ok (tooLong ++ tooShort ++ period ++ mood ++ case).

(** The [forEach] of [validateBody], from the line of index [index]. *)
Fixpoint validateBody_from (v : t) (index : nat) (bodyLines : list str)
  : list str :=
  match bodyLines with
  | [] => []
  | line :: rest =>
      (if maxLineLength (config v) <? length line
       then [errBodyLine (index + 1) (length line) (maxLineLength (config v))]
       else [])
      ++ validateBody_from v (index + 1) rest
  end.

Definition validateBody (v : t) (bodyLines : list str) : list str :=
  validateBody_from v 0 bodyLines.

Definition validateHeader (v : t) (header : str) : result (list str) :=
  match conventionalPattern header with
  | None => Ok [errHeaderFormat]
  | Some (type, _, subject) =>
      let membership :=
        if negb (existsb (str_eqb type) (validTypes v))
        then [errInvalidType type (validTypes v)] else [] in
      let case :=
        if negb (str_eqb type (toLowerCase type)) then [errTypeCase] else [] in
      subjectErrors <- validateSubject v subject ;;
      Ok (membership ++ case ++ subjectErrors)
  end.

Definition validate (v : t) (message : str) : result ValidationResult :=
  if negb (nonEmpty message) || (length (trim message) =? 0)
  then Ok {| valid := false; errors := [errEmpty] |}
  else
    let lines := split nl message in
    let headerLine := hd [] lines in
    headerErrors <- validateHeader v headerLine ;;
    let bodyErrors :=
      if 2 <? length lines then validateBody v (skipn 2 lines) else [] in
    let errors := headerErrors ++ bodyErrors in
    Ok {| valid := length errors =? 0; errors := errors |}.

(** *** parse *)

Record ParsedMessage : Type := {
  type : str;
  scope : option str;
  subject : str;
  body : option str;
  footer : option str;
  breaking : bool
}.

(** The loop that looks for the body: [rest] is [lines] from index [i]. *)
Fixpoint bodyStart_from (lines : list str) (i : nat) (rest : list str)
  : option nat :=
  match rest with
  | [] => None
  | line :: rest' =>
      if negb (nonEmpty (trim line)) && (i + 1 <? length lines)
      then Some (i + 1)
      else bodyStart_from lines (i + 1) rest'
  end.

(** [bodyStartIndex]; [None] is -1. *)
Definition bodyStartIndex (lines : list str) : option nat :=
  bodyStart_from lines 1 (skipn 1 lines).

Definition isFooterStart (line : str) : bool :=
  startsWith (js "BREAKING CHANGE:") line
  || startsWith (js "Closes") line
  || startsWith (js "Fixes") line
  || startsWith (js "Refs") line.

Definition parse (message : str) : option ParsedMessage :=
  let lines := split nl message in
  let headerLine := hd [] lines in
  match conventionalPattern headerLine with
  | None => None
  | Some (type, scope, subject) =>
      let '(body, footer, breaking) :=
        match bodyStartIndex lines with
        | Some start =>
            let bodyLines := skipn start lines in
            let '(body, footer) :=
              match findIndex isFooterStart bodyLines with
              | Some footerIndex =>
                  (trim (join [nl] (firstn footerIndex bodyLines)),
                   trim (join [nl] (skipn footerIndex bodyLines)))
              | None => (trim (join [nl] bodyLines), [])
              end in
            (body, footer, includes (js "BREAKING CHANGE:") footer)
        | None => ([], [], false)
        end in
      Some {| type := type; scope := scope; subject := subject;
              body := orNull body; footer := orNull footer;
              breaking := breaking |}
  end.

End Validator.


(* ================================================================== *)
(** ** src/core/formatter.js                                           *)
(* ================================================================== *)

Module Formatter.

Record CommitComponents : Type := {
  type : str;
  scope : option str;
  subject : str;
  body : option str;
  breaking : option str;
  footer : option str
}.

(** The text of a value that a condition found truthy. *)
Definition text (o : option str) : str :=
  match o with Some s => s | None => [] end.

(** *** wrapText *)

(** One turn of the [forEach]: the lines pushed so far and [currentLine]. *)
Definition wrapStep (maxLength : nat) (st : list str * str) (word : str)
  : list str * str :=
  let (lines, currentLine) := st in
  if length (currentLine ++ word) <=? maxLength
  then (lines,
        currentLine ++ (if nonEmpty currentLine then [sp] else []) ++ word)
  else ((if nonEmpty currentLine then lines ++ [currentLine] else lines),
        word).

(** The array [lines] when [wrapText] joins it. *)
Definition wrapLines (text : str) (maxLength : nat) : list str :=
  if negb (nonEmpty text) then []
  else
    let words := split sp text in
    let (lines, currentLine) := fold_left (wrapStep maxLength) words ([], []) in
    if nonEmpty currentLine then lines ++ [currentLine] else lines.

Definition wrapText (text : str) (maxLength : nat) : str :=
  join [nl] (wrapLines text maxLength).

(** *** format *)

Definition format (components : CommitComponents) : str :=
  let header := type components in
  let header :=
    if truthy (scope components)
    then header ++ js "(" ++ text (scope components) ++ js ")" else header in
  let header := header ++ js ": " ++ subject components in
  let parts := [header] in
  let parts :=
    if truthy (body components)
    then parts ++ [[]; wrapText (text (body components)) 100] else parts in
  let parts :=
    if truthy (breaking components)
    then parts ++ [[]; js "BREAKING CHANGE: " ++ text (breaking components)]
    else parts in
  let parts :=
    if truthy (footer components)
    then (if negb (truthy (breaking components)) then parts ++ [[]] else parts)
         ++ [text (footer components)]
    else parts in
  join [nl] parts.

(** *** detectType *)

Definition typeKeywords : list (str * list str) :=
  map (fun e => (js (fst e), map js (snd e)))
    [ ("feat", ["add"; "create"; "implement"; "introduce"; "new"]);
      ("fix", ["fix"; "resolve"; "correct"; "repair"; "patch"; "bug"]);
      ("docs", ["document"; "readme"; "docs"; "comment"]);
      ("refactor", ["refactor"; "restructure"; "reorganize"; "cleanup"]);
      ("test", ["test"; "testing"; "spec"; "coverage"]);
      ("style", ["format"; "styling"; "indent"; "whitespace"]);
      ("chore", ["update"; "upgrade"; "dependency"; "deps"; "maintain"]);
      ("perf", ["optimize"; "performance"; "faster"; "speed"]) ]%string.

(** The two nested loops: the first type, in the order of the object's keys,
    one of whose keywords occurs in the lowered message. *)
Fixpoint detectIn (entries : list (str * list str)) (lowerMessage : str)
  : option str :=
  match entries with
  | [] => None
  | (type, keywords) :: rest =>
      if existsb (fun keyword => includes keyword lowerMessage) keywords
      then Some type
      else detectIn rest lowerMessage
  end.

Definition detectType (message : str) : option str :=
  detectIn typeKeywords (toLowerCase message).

(** *** autoFormat *)

(** [s.replace(/^(w1|w2|...):\s*/i, empty)]: the first of the words that is
    followed by a colon is removed with the colon and the white space after
    it. *)
Fixpoint stripPrefix (words : list str) (s : str) : str :=
  match words with
  | [] => s
  | w :: rest =>
      if startsWith_ci (w ++ js ":") s
      then dropWhile isSpace (skipn (length w + 1) s)
      else stripPrefix rest s
  end.

(** [s.charAt(0).toLowerCase() + s.slice(1)]. *)
Definition lowerFirst (s : str) : str :=
  match s with
  | [] => []
  | c :: rest => toLowerCase_char c :: rest
  end.

(** [s.replace(/\.$/, empty)]: a final period is removed. *)
Definition stripTrailingPeriod (s : str) : str :=
  if endsWith_char "."%char s then removelast s else s.

Record AutoFormatted : Type := {
  af_type : str;
  af_subject : str;
  af_confidence : str
}.

Definition autoFormat (rawMessage : str) (detectedType : option str)
  : AutoFormatted :=
  let type :=
    if truthy detectedType then text detectedType
    else match detectType rawMessage with
         | Some t => if nonEmpty t then t else js "chore"
         | None => js "chore"
         end in
  let subject := trim rawMessage in
  let subject :=
    stripPrefix (map js ["fix"; "fixes"; "fixed"; "fixing"]%string) subject in
  let subject :=
    stripPrefix (map js ["add"; "adds"; "added"; "adding"]%string) subject in
  let subject :=
    stripPrefix (map js ["update"; "updates"; "updated"; "updating"]%string)
      subject in
  let subject := lowerFirst subject in
  let subject := stripTrailingPeriod subject in
  let subject :=
    if 72 <? length subject then firstn 69 subject ++ js "..." else subject in
  {| af_type := type;
     af_subject := subject;
     af_confidence := if truthy detectedType then js "high" else js "medium" |}.

(** *** analyzeSubject *)

Record Suggestion : Type := {
  s_type : str;
  s_message : str
}.

Record Analysis : Type := {
  valid : bool;
  suggestions : list Suggestion
}.

(** [/^(adds|adding|added|fixes|fixing|fixed|updates|updating|updated)/i]. *)
Definition nonImperative (subject : str) : bool :=
  existsb (fun w => startsWith_ci w subject)
    (map js ["adds"; "adding"; "added"; "fixes"; "fixing"; "fixed";
             "updates"; "updating"; "updated"]%string).

(** [c === c.toUpperCase()] for a one-character string. *)
Definition isOwnUpperCase (c : ascii) : bool :=
  match toUpperCase_char c with
  | [u] => u =? code c
  | _ => false
  end.

Definition lengthAdvice (n : nat) : Suggestion :=
  {| s_type := js "length";
     s_message := js "Subject is " ++ ofNat n
                  ++ js " chars (max 72). Consider shortening." |}.
Definition moodAdvice : Suggestion :=
  {| s_type := js "mood";
     s_message := js "Use imperative mood (e.g., " ++ [dquote] ++ js "add"
                  ++ [dquote] ++ js " not " ++ [dquote] ++ js "adds"
                  ++ [dquote] ++ js " or " ++ [dquote] ++ js "added"
                  ++ [dquote] ++ js ")" |}.
Definition caseAdvice : Suggestion :=
  {| s_type := js "case"; s_message := js "Start with lowercase letter" |}.
Definition punctuationAdvice : Suggestion :=
  {| s_type := js "punctuation"; s_message := js "Remove trailing period" |}.

Definition analyzeSubject (subject : str) : result Analysis :=
  let len :=
    if 72 <? length subject then [lengthAdvice (length subject)] else [] in
  let mood := if nonImperative subject then [moodAdvice] else [] in
  case <-
    match subject with
    | [] => Throw TypeError
    | c :: _ => Ok (if isOwnUpperCase c then [caseAdvice] else [])
    end ;;
  let punctuation :=
    if endsWith_char "."%char subject then [punctuationAdvice] else [] in
  let suggestions := len ++ mood ++ case ++ punctuation in
  Ok {| valid := length suggestions =? 0; suggestions := suggestions |}.

(** *** suggestScope *)

Definition slash : ascii := "/"%char.

(** The patterns of [suggestScope], each as the test it makes on a path,
    with its scope:
    [/^src\/api\//], [/^src\/ui\/|^src\/components\//],
    [/^src\/db\/|^migrations\//], [/^src\/auth\//], [/^tests?\//],
    [/^docs?\/|README/], [/package\.json|yarn\.lock|package-lock\.json/],
    [/\.config\.|config\//]. *)
Definition scopePatterns : list ((str -> bool) * str) :=
  [ (fun file => startsWith (js "src/api/") file, js "api");
    (fun file => startsWith (js "src/ui/") file
                 || startsWith (js "src/components/") file, js "ui");
    (fun file => startsWith (js "src/db/") file
                 || startsWith (js "migrations/") file, js "db");
    (fun file => startsWith (js "src/auth/") file, js "auth");
    (fun file => startsWith (js "test/") file
                 || startsWith (js "tests/") file, js "test");
    (fun file => startsWith (js "doc/") file || startsWith (js "docs/") file
                 || includes (js "README") file, js "docs");
    (fun file => includes (js "package.json") file
                 || includes (js "yarn.lock") file
                 || includes (js "package-lock.json") file, js "deps");
    (fun file => includes (js ".config.") file
                 || includes (js "config/") file, js "config") ].

(** [([^\/]+)\/] at the start of a path: the characters before the first
    slash, when there are some and the slash is there. *)
Definition firstSegment (path : str) : option str :=
  let (segment, rest) := span (fun c => negb (Ascii.eqb c slash)) path in
  match segment, rest with
  | _ :: _, _ :: _ => Some segment
  | _, _ => None
  end.

(** [firstFile.match(/^(?:src\/)?([^\/]+)\//)]: the group is looked for
    after a leading "src/" first, and from the start of the path when that
    fails or when there is no such prefix. *)
Definition firstDirectory (firstFile : str) : option str :=
  if startsWith (js "src/") firstFile
  then match firstSegment (skipn 4 firstFile) with
       | Some segment => Some segment
       | None => firstSegment firstFile
       end
  else firstSegment firstFile.

(** The loop over the patterns. *)
Fixpoint scopeOfPatterns (patterns : list ((str -> bool) * str))
  (changedFiles : list str) : option str :=
  match patterns with
  | [] => None
  | (pattern, scope) :: rest =>
      if existsb pattern changedFiles then Some scope
      else scopeOfPatterns rest changedFiles
  end.

Definition suggestScope (changedFiles : list str) : option str :=
  match changedFiles with
  | [] => None
  | firstFile :: _ =>
      match scopeOfPatterns scopePatterns changedFiles with
      | Some scope => Some scope
      | None => firstDirectory firstFile
      end
  end.

(** *** cleanSubject *)

(** [s.replace(/\s+/g, " ")]: every run of white space becomes one space;
    [inRun] tells that the previous character was white space. *)
Fixpoint collapseSpaces (inRun : bool) (s : str) : str :=
  match s with
  | [] => []
  | c :: rest =>
      if isSpace c
      then if inRun then collapseSpaces true rest
           else sp :: collapseSpaces true rest
      else c :: collapseSpaces false rest
  end.

Definition isQuote (c : ascii) : bool :=
  Ascii.eqb c dquote || Ascii.eqb c "'"%char.

(** [s.replace(/^[quotes]|[quotes]$/g, empty)]: a quote at the start is
    removed, then a quote at the end of what is left. *)
Definition stripQuotes (s : str) : str :=
  let s1 :=
    match s with
    | c :: rest => if isQuote c then rest else s
    | [] => []
    end in
  match rev s1 with
  | c :: _ => if isQuote c then removelast s1 else s1
  | [] => s1
  end.

Definition cleanSubject (subject : str) : str :=
  stripTrailingPeriod (stripQuotes (collapseSpaces false (trim subject))).

End Formatter.

(* ================================================================== *)
(** ** src/prompts/questions.js: the checks of the prompts             *)
(* ================================================================== *)

Module Questions.

(** What a [validate] function of a question returns: [true], or the text
    shown to the user. *)
Inductive verdict : Type :=
| Pass
| Fail (message : str).

(** The validator of the module, [new Validator()]. *)
Definition validator : Validator.t := Validator.new Validator.noOverrides.

(** A character of [[a-z0-9-]] under the [i] flag. *)
Definition isScopeChar (c : ascii) : bool :=
  let u := code (canonicalize c) in
  between 65 90 u || between 48 57 u || (u =? 45).

(** [validate] of the question "customScope". *)
Definition customScopeValidate (input : str) : verdict :=
  if negb (nonEmpty input) || str_eqb (trim input) []
  then Fail (js "Scope cannot be empty. Use " ++ [dquote] ++ js "empty"
             ++ [dquote] ++ js " option if no scope needed.")
  else if negb (nonEmpty input && forallb isScopeChar input)
  then Fail (js "Scope must contain only letters, numbers, and hyphens")
  else Pass.

(** [validate] of the question "subject". *)
Definition subjectValidate (input : str) : verdict :=
  if negb (nonEmpty input) || str_eqb (trim input) []
  then Fail (js "Subject is required")
  else if 72 <? length input
  then Fail (js "Subject is too long (" ++ ofNat (length input)
             ++ js "/72 chars)")
  else if endsWith_char "."%char input
  then Fail (js "Subject should not end with a period")
  else if negb (Validator.isImperative input)
  then Fail (js "Use imperative mood (e.g., " ++ [dquote] ++ js "add"
             ++ [dquote] ++ js " not " ++ [dquote] ++ js "adds" ++ [dquote]
             ++ js " or " ++ [dquote] ++ js "added" ++ [dquote] ++ js ")")
  else Pass.

(** [filter] of the question "subject". *)
Definition subjectFilter (input : str) : str :=
  let fixed := trim input in
  let fixed := Formatter.lowerFirst fixed in
  Formatter.stripTrailingPeriod fixed.

End Questions.

(* ================================================================== *)
(** ** src/prompts/interactive.js: the reformatting of runAmend        *)
(* ================================================================== *)

Module Interactive.

(** The message that [runAmend] builds for the actions "reformat" and
    "edit": the result of [autoFormat] given to [format] without scope,
    body, breaking description or footer. *)
Definition reformat (currentMessage : str) : str :=
  let detected := Formatter.autoFormat currentMessage None in
  Formatter.format
    {| Formatter.type := Formatter.af_type detected;
       Formatter.scope := None;
       Formatter.subject := Formatter.af_subject detected;
       Formatter.body := None;
       Formatter.breaking := None;
       Formatter.footer := None |}.

End Interactive.

(* ================================================================== *)
(** ** Vocabulary of the properties                                    *)
(* ================================================================== *)

(** [new Validator()]: the default rule configuration. *)
Definition defaultValidator : Validator.t := Validator.new Validator.noOverrides.

(** The result [{ valid: true, errors: [] }]. *)
Definition accepted : result Validator.ValidationResult :=
  Ok {| Validator.valid := true; Validator.errors := [] |}.

(** A message that is empty or made of white space only. *)
Definition blank (s : str) : Prop := forallb isSpace s = true.

(** A line: a string without a line feed. *)
Definition isLine (s : str) : Prop :=
  forallb (fun c => negb (Ascii.eqb c nl)) s = true.

(** A token: a non-empty string of word characters, what [\w+] takes. *)
Definition isToken (s : str) : Prop := s <> [] /\ forallb isWord s = true.

(** A scope that is absent, or non-empty and made of word characters and
    hyphens. *)
Definition scopeOK (o : option str) : Prop :=
  match o with
  | None => True
  | Some s => s <> [] /\ forallb isWordOrHyphen s = true
  end.

(** A subject that starts with a character other than white space and holds
    no line terminator. *)
Definition plainSubject (s : str) : Prop :=
  match s with
  | [] => False
  | c :: _ => isSpace c = false
  end /\ Validator.noLineTerminator s = true.

(** The text of the optional group of the header pattern. *)
Definition scopeText (scope : option str) : str :=
  match scope with
  | Some s => js "(" ++ s ++ js ")"
  | None => []
  end.

(** A reading of a header along the pattern: a token, the optional group, a
    colon, white space, and a non-empty subject without line terminator. *)
Definition headerShape (header type : str) (scope : option str) (subject : str)
  : Prop :=
  isToken type /\ scopeOK scope /\ subject <> []
  /\ Validator.noLineTerminator subject = true
  /\ exists ws, forallb isSpace ws = true
                /\ header = type ++ scopeText scope ++ js ":" ++ ws ++ subject.

(** The header that [format] builds. *)
Definition headerOf (c : Formatter.CommitComponents) : str :=
  Formatter.type c
  ++ (if truthy (Formatter.scope c)
      then js "(" ++ Formatter.text (Formatter.scope c) ++ js ")" else [])
  ++ js ": " ++ Formatter.subject c.

(** The parts that [format] pushes after the header. *)
Definition trailer (c : Formatter.CommitComponents) : list str :=
  (if truthy (Formatter.body c)
   then [[]; Formatter.wrapText (Formatter.text (Formatter.body c)) 100]
   else [])
  ++ (if truthy (Formatter.breaking c)
      then [[]; js "BREAKING CHANGE: " ++ Formatter.text (Formatter.breaking c)]
      else [])
  ++ (if truthy (Formatter.footer c)
      then (if negb (truthy (Formatter.breaking c)) then [[]] else [])
           ++ [Formatter.text (Formatter.footer c)]
      else []).

(** Components with neither body, breaking description nor footer. *)
Definition headerOnly (c : Formatter.CommitComponents) : Prop :=
  Formatter.body c = None /\ Formatter.breaking c = None
  /\ Formatter.footer c = None.

(** [parse(format(c))] is an object with the type, scope and subject of
    [c]. *)
Definition headerRoundTrip (c : Formatter.CommitComponents) : Prop :=
  exists r, Validator.parse (Formatter.format c) = Some r
            /\ Validator.type r = Formatter.type c
            /\ Validator.scope r = Formatter.scope c
            /\ Validator.subject r = Formatter.subject c.

(** Components whose subject starts with a space. *)
Definition leadingSpaceComponents : Formatter.CommitComponents :=
  {| Formatter.type := js "feat"; Formatter.scope := None;
     Formatter.subject := js " add login"; Formatter.body := None;
     Formatter.breaking := None; Formatter.footer := None |}.

(** Well-formed components with a scope, for the examples. *)
Definition scopedComponents : Formatter.CommitComponents :=
  {| Formatter.type := js "fix"; Formatter.scope := Some (js "auth");
     Formatter.subject := js "resolve login timeout issue";
     Formatter.body := None; Formatter.breaking := None;
     Formatter.footer := None |}.

(** Overrides that bring a [types] list with the one type "wip". *)
Definition wipOverrides : Validator.Overrides :=
  {| Validator.o_maxSubjectLength := None;
     Validator.o_minSubjectLength := None;
     Validator.o_maxLineLength := None;
     Validator.o_enforceImperative := None;
     Validator.o_subjectCase := None;
     Validator.o_allowBreakingChanges := None;
     Validator.o_types := Some [ {| Defaults.value := js "wip" |} ] |}.

(** A body of two words of fifty letters. *)
Definition twoLongWords : str :=
  repeat "a"%char 50 ++ [sp] ++ repeat "b"%char 50.

Definition longBodyComponents : Formatter.CommitComponents :=
  {| Formatter.type := js "feat"; Formatter.scope := None;
     Formatter.subject := js "add login"; Formatter.body := Some twoLongWords;
     Formatter.breaking := None; Formatter.footer := None |}.

(** The bound of the specification on a line of [wrapText]: at most
    [maxLength] characters, unless it is one word longer than that. *)
Definition withinWidth (maxLength : nat) (words : list str) (line : str)
  : Prop :=
  length line <= maxLength \/ (In line words /\ maxLength < length line).

(** [{ maxSubjectLength: 50 }] and [{ enforceImperative: false }]. *)
Definition max50Overrides : Validator.Overrides :=
  {| Validator.o_maxSubjectLength := Some 50;
     Validator.o_minSubjectLength := None;
     Validator.o_maxLineLength := None;
     Validator.o_enforceImperative := None;
     Validator.o_subjectCase := None;
     Validator.o_allowBreakingChanges := None;
     Validator.o_types := None |}.

Definition anyMoodOverrides : Validator.Overrides :=
  {| Validator.o_maxSubjectLength := None;
     Validator.o_minSubjectLength := None;
     Validator.o_maxLineLength := None;
     Validator.o_enforceImperative := Some false;
     Validator.o_subjectCase := None;
     Validator.o_allowBreakingChanges := None;
     Validator.o_types := None |}.

(** The bound that the lines built by [wrapText] do satisfy. *)
Definition wrapped (maxLength : nat) (words : list str) (line : str) : Prop :=
  length line <= maxLength + 1 \/ In line words.

(** One of the default valid types. *)
Definition defaultType (type : str) : Prop :=
  In type (map Defaults.value Defaults.types).

(** A subject whose first character is its own lower case. *)
Definition lowercaseFirst (s : str) : Prop :=
  match s with
  | [] => True
  | c :: _ => toLowerCase_char c = c
  end.

(** The subject of the round trip of the specification: lowercase-first,
    non-empty, at most 72 characters, no trailing period, no recognized
    inflection at its start. *)
Definition statedSubject (s : str) : Prop :=
  s <> [] /\ lowercaseFirst s /\ length s <= 72
  /\ endsWith_char "."%char s = false /\ Validator.isImperative s = true.

(** Every line of a text has at most [n] characters. *)
Definition linesWithin (n : nat) (s : str) : Prop :=
  Forall (fun l => length l <= n) (split nl s).

(** Every line that follows the header in [format(c)] has at most 100
    characters. *)
Definition trailerFits (c : Formatter.CommitComponents) : Prop :=
  Forall (linesWithin 100) (trailer c).

(** Components with a subject of two characters. *)
Definition shortSubjectComponents : Formatter.CommitComponents :=
  {| Formatter.type := js "feat"; Formatter.scope := None;
     Formatter.subject := js "ab"; Formatter.body := None;
     Formatter.breaking := None; Formatter.footer := None |}.

(** Well-formed components with every part. *)
Definition fullComponents : Formatter.CommitComponents :=
  {| Formatter.type := js "fix"; Formatter.scope := Some (js "auth");
     Formatter.subject := js "resolve login timeout issue";
     Formatter.body := Some (js "Wait for the session before the redirect.");
     Formatter.breaking := Some (js "the login endpoint moved");
     Formatter.footer := Some (js "Closes #42") |}.

(** Two texts that differ, whatever the case, at a position that both
    have. *)
Fixpoint mismatch (w r : str) : bool :=
  match w, r with
  | a :: w', b :: r' => negb (eqb_ci a b) || mismatch w' r'
  | _, _ => false
  end.

(** One call of the chain of [toImperative]. *)
Definition rewriteStep (s : str) (e : str * str) : str :=
  Validator.replaceLead (fst e) (snd e) s.

(** Components whose header the pattern reads back: a type made of word
    characters, a scope that is absent or made of word characters and
    hyphens, a subject that starts with a character other than white space
    and holds no line terminator. *)
Definition wellFormedHeader (c : Formatter.CommitComponents) : Prop :=
  isToken (Formatter.type c) /\ scopeOK (Formatter.scope c)
  /\ plainSubject (Formatter.subject c).

(** The object that [parse] builds from the groups of the header and the
    lines that follow the blank line. *)
Definition parsedFrom (type : str) (scope : option str) (subject : str)
  (block : list str) : Validator.ParsedMessage :=
  let (body, footer) :=
    match findIndex Validator.isFooterStart block with
    | Some k => (trim (join [nl] (firstn k block)),
                 trim (join [nl] (skipn k block)))
    | None => (trim (join [nl] block), [])
    end in
  {| Validator.type := type; Validator.scope := scope;
     Validator.subject := subject; Validator.body := orNull body;
     Validator.footer := orNull footer;
     Validator.breaking := includes (js "BREAKING CHANGE:") footer |}.

(** A text occurs in another. *)
Definition occursIn (p s : str) : Prop :=
  exists before after, s = before ++ p ++ after.

(** The lines that [wrapText] holds at a point of its loop: the lines
    pushed, then the current line when it is not empty. *)
Definition flush (st : list str * str) : list str :=
  fst st ++ (if nonEmpty (snd st) then [snd st] else []).

(** A property of the first character of a text, when it has one. *)
Definition headIs (P : ascii -> Prop) (s : str) : Prop :=
  match s with
  | c :: _ => P c
  | [] => True
  end.

(** A character that is neither white space nor changed by [toLowerCase]. *)
Definition tidyHead (c : ascii) : Prop :=
  isSpace c = false /\ toLowerCase_char c = c.

(** A text without slash. *)
Definition noSlash (s : str) : Prop :=
  forallb (fun c => negb (Ascii.eqb c Formatter.slash)) s = true.

(** A text in which every white space character is a space that is followed
    by a character other than white space, or by nothing. *)
Fixpoint singleSpaced (s : str) : bool :=
  match s with
  | [] => true
  | c :: rest =>
      (if isSpace c
       then Ascii.eqb c sp
            && match rest with d :: _ => negb (isSpace d) | [] => true end
       else true)
      && singleSpaced rest
  end.

(** A text begins with a prefix; with one of several prefixes. *)
Definition beginsWith (prefix l : str) : Prop := exists rest, l = prefix ++ rest.

Definition beginsWithOneOf (prefixes : list str) (l : str) : Prop :=
  exists prefix, In prefix prefixes /\ beginsWith prefix l.

(** The four texts that open a footer. *)
Definition footerMarkers : list str :=
  map js ["BREAKING CHANGE:"; "Closes"; "Fixes"; "Refs"]%string.

(** Components with a well-formed header, a footer and nothing else. *)
Definition footerOnly (footer : str) : Formatter.CommitComponents :=
  {| Formatter.type := js "fix"; Formatter.scope := Some (js "auth");
     Formatter.subject := js "resolve login timeout issue";
     Formatter.body := None; Formatter.breaking := None;
     Formatter.footer := Some footer |}.

(** [parse(format(...))] gives the footer back as the footer; as the
    body. *)
Definition footerKept (footer : str) : Prop :=
  exists r,
    Validator.parse (Formatter.format (footerOnly footer)) = Some r
    /\ Validator.body r = None /\ Validator.footer r = Some footer.

Definition footerTakenAsBody (footer : str) : Prop :=
  exists r,
    Validator.parse (Formatter.format (footerOnly footer)) = Some r
    /\ Validator.body r = Some footer /\ Validator.footer r = None.

(* ================================================================== *)
(** ** Strings: basic facts                                            *)
(* ================================================================== *)

Unset Implicit Arguments.

Section StringFacts.

Variable p : ascii -> bool.

Lemma dropWhile_all (s : str) : forallb p s = true -> dropWhile p s = [].
Proof.
  induction s as [|c s IH]; simpl; [reflexivity|].
  intros H. apply andb_prop in H as [Hc Hs]. rewrite Hc. now apply IH.
Qed.

Lemma dropWhile_keeps (s : str) (c : ascii) :
  In c s -> p c = false -> exists d, In d (dropWhile p s) /\ p d = false.
Proof.
  induction s as [|x s IH]; simpl; [tauto|].
  intros [->|Hin] Hc.
  - rewrite Hc. exists c. split; [now left | assumption].
  - destruct (p x) eqn:Hx.
    + now apply IH.
    + exists x. split; [now left | assumption].
Qed.

Lemma span_eq (s a b : str) :
  span p s = (a, b) -> s = a ++ b /\ forallb p a = true.
Proof.
  revert a b. induction s as [|c s IH]; simpl; intros a b H.
  - inversion H. now split.
  - destruct (p c) eqn:Hc.
    + destruct (span p s) as [a' b'] eqn:Hs. inversion H; subst.
      destruct (IH a' b eq_refl) as [-> Ha]. simpl. now rewrite Hc, Ha.
    + inversion H. now split.
Qed.

Lemma span_stop (a b : str) :
  forallb p a = true ->
  match b with [] => True | c :: _ => p c = false end ->
  span p (a ++ b) = (a, b).
Proof.
  induction a as [|x a IH]; simpl; intros Ha Hb.
  - destruct b as [|c b]; simpl; [reflexivity | now rewrite Hb].
  - apply andb_prop in Ha as [Hx Ha]. rewrite Hx, (IH Ha Hb). reflexivity.
Qed.

Lemma span_longest (s w t : str) :
  span p s = (w, t) ->
  forall a b, s = a ++ b -> forallb p a = true -> length a <= length w.
Proof.
  revert w t. induction s as [|c s IH]; simpl; intros w t H a b Hs Ha.
  - destruct a; [simpl; lia | discriminate].
  - destruct a as [|x a]; [simpl; lia|].
    simpl in Hs, Ha. inversion Hs; subst x.
    apply andb_prop in Ha as [Hc Ha]. rewrite Hc in H.
    destruct (span p s) as [w' t'] eqn:Hspan. inversion H; subst.
    simpl. apply le_n_S. now apply (IH w' t eq_refl a b).
Qed.

Lemma span_app_all (a b : str) :
  forallb p a = true ->
  span p (a ++ b) = (a ++ fst (span p b), snd (span p b)).
Proof.
  induction a as [|x a IH]; simpl; intros Ha.
  - now destruct (span p b).
  - apply andb_prop in Ha as [Hx Ha]. now rewrite Hx, (IH Ha).
Qed.

End StringFacts.

Lemma str_eqb_eq (a b : str) : str_eqb a b = true <-> a = b.
Proof.
  revert b. induction a as [|x a IH]; destruct b as [|y b]; simpl;
    try (split; [discriminate | congruence]); try tauto.
  rewrite andb_true_iff, Ascii.eqb_eq, IH. split.
  - now intros [-> ->].
  - intros H. now inversion H.
Qed.

Lemma trim_blank (s : str) : blank s -> trim s = [].
Proof.
  intros H. unfold trim, trimStart, trimEnd.
  now rewrite (dropWhile_all isSpace s H).
Qed.

Lemma trim_not_blank (s : str) : forallb isSpace s = false -> trim s <> [].
Proof.
  intros H. unfold trim, trimStart, trimEnd.
  assert (exists c, In c s /\ isSpace c = false) as (c & Hin & Hc).
  { induction s as [|x s IH]; simpl in H; [discriminate|].
    destruct (isSpace x) eqn:Hx.
    - destruct (IH H) as (c & Hin & Hc). exists c. split; [now right | easy].
    - exists x. split; [now left | easy]. }
  destruct (dropWhile_keeps isSpace s c Hin Hc) as (d & Hd & Hdp).
  apply in_rev in Hd.
  destruct (dropWhile_keeps isSpace _ d Hd Hdp) as (e & He & _).
  intros Hnil. apply (f_equal (@rev ascii)) in Hnil.
  rewrite rev_involutive in Hnil. rewrite Hnil in He. destruct He.
Qed.

(** *** split and join *)

Lemma split_not_nil (sep : ascii) (s : str) : split sep s <> [].
Proof.
  destruct s as [|c s]; simpl; [discriminate|].
  destruct (Ascii.eqb c sep); [discriminate|].
  destruct (split sep s); discriminate.
Qed.

Lemma split_line (sep : ascii) (s : str) :
  forallb (fun c => negb (Ascii.eqb c sep)) s = true -> split sep s = [s].
Proof.
  induction s as [|c s IH]; simpl; [reflexivity|].
  intros H. apply andb_prop in H as [Hc Hs].
  apply negb_true_iff in Hc. rewrite Hc, (IH Hs). reflexivity.
Qed.

Lemma split_app (sep : ascii) (x y : str) :
  split sep (x ++ sep :: y) = split sep x ++ split sep y.
Proof.
  induction x as [|c x IH]; simpl.
  - now rewrite Ascii.eqb_refl.
  - destruct (Ascii.eqb c sep); [now rewrite IH|].
    rewrite IH. destruct (split sep x) as [|l ls] eqn:Hx; [|reflexivity].
    now destruct (split_not_nil sep x).
Qed.

Lemma join_cons (sep : ascii) (p q : str) (rest : list str) :
  join [sep] (p :: q :: rest) = p ++ sep :: join [sep] (q :: rest).
Proof. reflexivity. Qed.

Lemma split_join (sep : ascii) (part : str) (parts : list str) :
  split sep (join [sep] (part :: parts))
  = concat (map (split sep) (part :: parts)).
Proof.
  revert part. induction parts as [|q parts IH]; intros part.
  - simpl. now rewrite app_nil_r.
  - rewrite join_cons, split_app, IH. reflexivity.
Qed.

(* ================================================================== *)
(** ** validate: the empty message and the second line                 *)
(* ================================================================== *)

Lemma blank_dec (s : str) : forallb isSpace s = false <-> ~ blank s.
Proof. unfold blank. destruct (forallb isSpace s); split; congruence. Qed.

(** Past the emptiness test, [validate] is its second part. *)
Lemma validate_not_blank (v : Validator.t) (message : str) :
  ~ blank message ->
  Validator.validate v message
  = (let lines := split nl message in
     headerErrors <- Validator.validateHeader v (hd [] lines) ;;
     let errors :=
       headerErrors ++
       (if 2 <? length lines
        then Validator.validateBody v (skipn 2 lines) else []) in
     Ok {| Validator.valid := length errors =? 0;
           Validator.errors := errors |}).
Proof.
  intros H. unfold Validator.validate.
  assert (Hne : nonEmpty message = true).
  { destruct message; [exfalso; now apply H | reflexivity]. }
  apply blank_dec, trim_not_blank in H.
  destruct (trim message) eqn:Ht; [congruence|].
  rewrite Hne. reflexivity.
Qed.

Lemma not_blank_app (a b : str) : ~ blank a -> ~ blank (a ++ b).
Proof.
  intros H. apply blank_dec. apply blank_dec in H.
  rewrite forallb_app, H. reflexivity.
Qed.

(** The lines of a message given by its first two lines and the rest. *)
Lemma lines_of_message (first second : str) (rest : list str) :
  isLine first -> isLine second ->
  split nl (join [nl] (first :: second :: rest))
  = first :: second :: concat (map (split nl) rest).
Proof.
  intros H1 H2. rewrite split_join. simpl.
  rewrite (split_line nl first H1), (split_line nl second H2). reflexivity.
Qed.

(** C9.  A message that is empty or made of white space only is rejected
    with exactly one error, the text "Commit message cannot be empty", and no
    other check contributes to the result; the empty string is one such
    message. *)
Theorem validate_blank_message (v : Validator.t) (message : str) :
  blank message ->
  Validator.validate v message
  = Ok {| Validator.valid := false;
          Validator.errors := [js "Commit message cannot be empty"] |}.
Proof.
  intros H. unfold Validator.validate.
  rewrite (trim_blank _ H). simpl. rewrite orb_true_r. reflexivity.
Qed.

Lemma validate_blank_message_witness :
  blank [] /\
  Validator.validate defaultValidator []
  = Ok {| Validator.valid := false;
          Validator.errors := [js "Commit message cannot be empty"] |}.
Proof.
  split; [reflexivity | apply (validate_blank_message defaultValidator [])].
  reflexivity.
Defined.

(** C10.  [validate] never reads the second line of a message: two messages
    with the same first line, not blank, and the same lines from the third
    on, get the same result whatever their second lines are; and a message of
    two lines gets the result of its first line alone, so its second line is
    neither required to be blank nor checked for length. *)
Theorem validate_ignores_second_line
  (v : Validator.t) (first second second' : str) (rest : list str) :
  isLine first -> isLine second -> isLine second' -> ~ blank first ->
  Validator.validate v (join [nl] (first :: second :: rest))
  = Validator.validate v (join [nl] (first :: second' :: rest))
  /\ Validator.validate v (join [nl] [first; second])
     = Validator.validate v first.
Proof.
  intros H1 H2 H2' Hnb.
  assert (Hm : forall x, ~ blank (join [nl] (first :: x :: rest))).
  { intros x. rewrite join_cons. now apply not_blank_app. }
  split.
  - rewrite !validate_not_blank by apply Hm.
    rewrite !lines_of_message by assumption. reflexivity.
  - rewrite !validate_not_blank;
      [| assumption | rewrite join_cons; now apply not_blank_app].
    rewrite (lines_of_message first second [] H1 H2).
    rewrite (split_line nl first H1). simpl.
    destruct (Validator.validateHeader v first); reflexivity.
Qed.

Lemma validate_ignores_second_line_witness :
  Validator.validate defaultValidator
    (join [nl] [js "feat: add login"; js "not a blank line"; []; js "body"])
  = Validator.validate defaultValidator
      (join [nl] [js "feat: add login"; []; []; js "body"])
  /\ Validator.validate defaultValidator
       (join [nl] [js "feat: add login"; js "not a blank line"])
     = Validator.validate defaultValidator (js "feat: add login").
Proof.
  apply (validate_ignores_second_line defaultValidator
           (js "feat: add login") (js "not a blank line") []
           [[]; js "body"]);
    try reflexivity.
  vm_compute. discriminate.
Defined.

(* ================================================================== *)
(** ** The header pattern                                              *)
(* ================================================================== *)

(** A match of [\s*(.+)$]: the subject is what follows the white space, and
    no other way to match takes more white space. *)
Lemma matchSubject_Some (r subject : str) :
  Validator.matchSubject r = Some subject ->
  subject <> [] /\ Validator.noLineTerminator subject = true
  /\ exists ws,
       forallb isSpace ws = true /\ r = ws ++ subject
       /\ forall ws' subject',
            r = ws' ++ subject' -> forallb isSpace ws' = true ->
            subject' <> [] -> length ws' <= length ws.
Proof.
  unfold Validator.matchSubject.
  destruct (span isSpace r) as [w t] eqn:Hspan.
  pose proof (span_longest isSpace r w t Hspan) as Hlongest.
  apply span_eq in Hspan as [Hr Hw].
  destruct t as [|c t].
  - rewrite app_nil_r in Hr. subst r.
    destruct (rev w) as [|c w'] eqn:Hrev; [discriminate|].
    destruct (isLineTerminator c) eqn:Hc; [discriminate|].
    intros H. inversion H; subst.
    assert (Hw' : w = rev w' ++ [c]).
    { rewrite <- (rev_involutive w), Hrev. reflexivity. }
    split; [discriminate|]. split; [simpl; now rewrite Hc|].
    exists (rev w'). rewrite Hw', forallb_app in Hw.
    apply andb_prop in Hw as [Hw _].
    split; [assumption|]. split; [assumption|].
    intros ws' subject' Heq _ Hne. apply (f_equal (@length ascii)) in Heq.
    rewrite Hw', !length_app in Heq. simpl in Heq.
    destruct subject'; [congruence | simpl in Heq; lia].
  - destruct (Validator.noLineTerminator (c :: t)) eqn:Ht; [|discriminate].
    intros H. inversion H; subst.
    split; [discriminate|]. split; [assumption|].
    exists w. split; [assumption|]. split; [reflexivity|].
    intros ws' subject' Heq Hws' _. now apply (Hlongest ws' subject').
Qed.

(** [\s*(.+)$] matches whenever white space is followed by a non-empty text
    without line terminator. *)
Lemma matchSubject_complete (ws subject : str) :
  forallb isSpace ws = true -> subject <> [] ->
  Validator.noLineTerminator subject = true ->
  exists subject', Validator.matchSubject (ws ++ subject) = Some subject'.
Proof.
  intros Hws Hne Hlt. unfold Validator.matchSubject.
  rewrite (span_app_all isSpace ws subject Hws).
  destruct (span isSpace subject) as [a t] eqn:Hspan.
  apply span_eq in Hspan as [Hsubject Ha]. simpl fst. simpl snd.
  destruct t as [|c t].
  - rewrite app_nil_r in Hsubject. subst a.
    rewrite rev_app_distr.
    destruct (rev subject) as [|c s'] eqn:Hrev.
    + apply (f_equal (@rev ascii)) in Hrev.
      rewrite rev_involutive in Hrev. simpl in Hrev. congruence.
    + simpl. assert (Hin : In c subject).
      { apply in_rev. rewrite Hrev. now left. }
      unfold Validator.noLineTerminator in Hlt.
      rewrite forallb_forall in Hlt. specialize (Hlt c Hin).
      apply negb_true_iff in Hlt. rewrite Hlt. now eexists.
  - subst subject. unfold Validator.noLineTerminator in *.
    rewrite forallb_app in Hlt. apply andb_prop in Hlt as [_ Hlt].
    rewrite Hlt. now eexists.
Qed.

Lemma matchSubject_plain (subject : str) :
  plainSubject subject ->
  Validator.matchSubject (sp :: subject) = Some subject.
Proof.
  intros [Hfirst Hlt]. unfold Validator.matchSubject.
  change (sp :: subject) with ([sp] ++ subject).
  rewrite (span_stop isSpace [sp] subject eq_refl).
  - destruct subject as [|c s]; [destruct Hfirst|]. now rewrite Hlt.
  - destruct subject; [exact I | exact Hfirst].
Qed.

(** A match of the header pattern reads the header along the pattern. *)
Lemma conventionalPattern_Some (header type subject : str) (scope : option str) :
  Validator.conventionalPattern header = Some (type, scope, subject) ->
  headerShape header type scope subject.
Proof.
  unfold Validator.conventionalPattern, headerShape.
  destruct (span isWord header) as [ty r1] eqn:Hty.
  apply span_eq in Hty as [Hheader Hword].
  destruct ty as [|t0 ty]; [discriminate|].
  destruct r1 as [|c r2]; [discriminate|].
  destruct (Ascii.eqb c "("%char) eqn:Hparen.
  - apply Ascii.eqb_eq in Hparen; subst c.
    destruct (span isWordOrHyphen r2) as [sc r3] eqn:Hsc.
    apply span_eq in Hsc as [Hr2 Hscope].
    destruct sc as [|s0 sc]; [discriminate|].
    destruct r3 as [|c3 r3]; [discriminate|].
    destruct (Ascii.eqb c3 ")"%char) eqn:H3;
      [apply Ascii.eqb_eq in H3; subst c3 | ].
    + destruct r3 as [|c4 r4]; [discriminate|].
      destruct (Ascii.eqb c4 ":"%char) eqn:H4;
        [apply Ascii.eqb_eq in H4; subst c4 | ].
      * destruct (Validator.matchSubject r4) as [su|] eqn:Hsu; [|discriminate].
        intros H; inversion H; subst.
        apply matchSubject_Some in Hsu as (Hne & Hlt & ws & Hws & -> & _).
        repeat split; try assumption; try discriminate.
        exists ws. split; [assumption|]. simpl.
        now rewrite <- app_assoc.
      * intros H. exfalso. revert H H4. clear.
        destruct c4 as [[] [] [] [] [] [] [] []]; simpl; discriminate.
    + intros H. exfalso. revert H H3. clear.
      destruct c3 as [[] [] [] [] [] [] [] []]; simpl; discriminate.
  - destruct (Ascii.eqb c ":"%char) eqn:Hcolon.
    + apply Ascii.eqb_eq in Hcolon; subst c.
      destruct (Validator.matchSubject r2) as [su|] eqn:Hsu; [|discriminate].
      intros H; inversion H; subst.
      apply matchSubject_Some in Hsu as (Hne & Hlt & ws & Hws & -> & _).
      repeat split; try assumption; try discriminate.
      exists ws. now split.
    + intros H. exfalso. revert H Hparen Hcolon. clear.
      destruct c as [[] [] [] [] [] [] [] []]; simpl; discriminate.
Qed.

(** The pattern matches every header that can be read along it, with the
    same type and scope. *)
Lemma conventionalPattern_complete
  (header type subject : str) (scope : option str) :
  headerShape header type scope subject ->
  exists subject',
    Validator.conventionalPattern header = Some (type, scope, subject').
Proof.
  intros ([Hne Hword] & Hscope & Hsu & Hlt & ws & Hws & ->).
  destruct (matchSubject_complete ws subject Hws Hsu Hlt) as [subject' Hm].
  exists subject'. unfold Validator.conventionalPattern.
  destruct scope as [sc|]; simpl scopeText.
  - destruct Hscope as [Hsne Hsc].
    change (js "(" ++ sc ++ js ")") with ("("%char :: sc ++ [")"%char]).
    rewrite (span_stop isWord type _ Hword) by reflexivity.
    destruct type as [|t0 ty]; [congruence|].
    rewrite <- app_comm_cons, <- app_assoc.
    rewrite (span_stop isWordOrHyphen sc _ Hsc) by reflexivity.
    destruct sc as [|s0 sc]; [congruence|].
    cbn [app js list_ascii_of_string]. now rewrite Hm.
  - rewrite (span_stop isWord type _ Hword) by reflexivity.
    destruct type as [|t0 ty]; [congruence|].
    cbn [app js list_ascii_of_string]. now rewrite Hm.
Qed.

(** The pattern gives back the parts of a header built by [format]. *)
Lemma conventionalPattern_headerOf (c : Formatter.CommitComponents) :
  isToken (Formatter.type c) -> scopeOK (Formatter.scope c) ->
  plainSubject (Formatter.subject c) ->
  Validator.conventionalPattern (headerOf c)
  = Some (Formatter.type c, Formatter.scope c, Formatter.subject c).
Proof.
  destruct c as [ty sc su bo br fo]. unfold headerOf. simpl.
  intros [Hne Hword] Hscope Hsubject.
  unfold Validator.conventionalPattern.
  destruct sc as [sc|]; simpl in *.
  - destruct Hscope as [Hsne Hsc].
    destruct sc as [|s0 sc]; [congruence|]. simpl nonEmpty. cbv iota.
    change (js "(" ++ (s0 :: sc) ++ js ")")
      with ("("%char :: (s0 :: sc) ++ [")"%char]).
    rewrite (span_stop isWord ty _ Hword) by reflexivity.
    destruct ty as [|t0 ty]; [congruence|].
    rewrite <- app_comm_cons, <- app_assoc.
    rewrite (span_stop isWordOrHyphen (s0 :: sc) _ Hsc) by reflexivity.
    cbn [app]. fold sp. now rewrite (matchSubject_plain su Hsubject).
  - rewrite (span_stop isWord ty _ Hword) by reflexivity.
    destruct ty as [|t0 ty]; [congruence|].
    cbn [app js list_ascii_of_string]. fold sp.
    now rewrite (matchSubject_plain su Hsubject).
Qed.

Lemma forallb_weaken (p q : ascii -> bool) (s : str) :
  (forall c, p c = true -> q c = true) ->
  forallb p s = true -> forallb q s = true.
Proof.
  intros Hpq. induction s as [|c s IH]; simpl; [reflexivity|].
  intros H. apply andb_prop in H as [Hc Hs]. now rewrite (Hpq c Hc), IH.
Qed.

Lemma word_not_nl (c : ascii) :
  isWordOrHyphen c = true -> negb (Ascii.eqb c nl) = true.
Proof.
  destruct c as [[] [] [] [] [] [] [] []]; vm_compute; congruence.
Qed.

Lemma isWord_isWordOrHyphen (c : ascii) :
  isWord c = true -> isWordOrHyphen c = true.
Proof. unfold isWordOrHyphen. now intros ->. Qed.

Lemma lineTerminator_nl (c : ascii) :
  negb (isLineTerminator c) = true -> negb (Ascii.eqb c nl) = true.
Proof.
  destruct c as [[] [] [] [] [] [] [] []]; vm_compute; congruence.
Qed.

(** The header built by [format] from well-formed parts is one line. *)
Lemma headerOf_isLine (c : Formatter.CommitComponents) :
  isToken (Formatter.type c) -> scopeOK (Formatter.scope c) ->
  plainSubject (Formatter.subject c) -> isLine (headerOf c).
Proof.
  destruct c as [ty sc su bo br fo]. unfold headerOf, isLine. simpl.
  intros [_ Hty] Hsc [_ Hsu].
  rewrite !forallb_app.
  rewrite (forallb_weaken isWord _ ty
             (fun c H => word_not_nl c (isWord_isWordOrHyphen c H)) Hty).
  cbn [forallb]. change (Validator.noLineTerminator su)
    with (forallb (fun c => negb (isLineTerminator c)) su) in Hsu.
  rewrite (forallb_weaken _ _ su lineTerminator_nl Hsu).
  destruct sc as [sc|]; simpl; [|reflexivity].
  destruct Hsc as [_ Hsc]. destruct sc as [|s0 sc]; simpl; [reflexivity|].
  rewrite forallb_app. simpl in Hsc. apply andb_prop in Hsc as [H0 Hsc].
  rewrite (word_not_nl s0 H0).
  now rewrite (forallb_weaken isWordOrHyphen _ sc word_not_nl Hsc).
Qed.

(* ================================================================== *)
(** ** parse after format: the header                                  *)
(* ================================================================== *)

(** [format] joins the header and the trailer with line feeds. *)
Lemma format_parts (c : Formatter.CommitComponents) :
  Formatter.format c = join [nl] (headerOf c :: trailer c).
Proof.
  unfold Formatter.format, trailer.
  assert (Hheader :
    (if truthy (Formatter.scope c)
     then Formatter.type c ++ js "(" ++ Formatter.text (Formatter.scope c)
          ++ js ")"
     else Formatter.type c) ++ js ": " ++ Formatter.subject c = headerOf c).
  { unfold headerOf. destruct (truthy (Formatter.scope c)).
    - now rewrite <- app_assoc.
    - reflexivity. }
  cbv zeta. rewrite Hheader.
  destruct (truthy (Formatter.body c)), (truthy (Formatter.breaking c)),
    (truthy (Formatter.footer c)); reflexivity.
Qed.

(** C7, as the specification states it, fails: [format] writes a subject
    that starts with a space after the colon and the space of the header,
    and the pattern of [parse] drops every white space after the colon. *)
Lemma header_round_trip_counterexample :
  headerOnly leadingSpaceComponents /\ ~ headerRoundTrip leadingSpaceComponents.
Proof.
  split; [now repeat split|].
  intros (r & Hparse & _ & _ & Hsubject).
  vm_compute in Hparse. inversion Hparse; subst r.
  vm_compute in Hsubject. discriminate.
Qed.

(** C7, amended.  For components with neither body, breaking description nor
    footer, whose type is a non-empty string of word characters, whose scope
    is absent or a non-empty string of word characters and hyphens, and whose
    subject starts with a character other than white space and holds no line
    terminator, [parse(format(c))] is an object whose type, scope and subject
    are those of [c]. *)
Theorem header_round_trip (c : Formatter.CommitComponents) :
  headerOnly c ->
  isToken (Formatter.type c) -> scopeOK (Formatter.scope c) ->
  plainSubject (Formatter.subject c) ->
  headerRoundTrip c.
Proof.
  intros (Hbody & Hbreaking & Hfooter) Hty Hsc Hsu.
  assert (Hformat : Formatter.format c = headerOf c).
  { rewrite format_parts. unfold trailer.
    now rewrite Hbody, Hbreaking, Hfooter. }
  unfold headerRoundTrip, Validator.parse. rewrite Hformat.
  rewrite (split_line nl _ (headerOf_isLine c Hty Hsc Hsu)). simpl hd.
  rewrite (conventionalPattern_headerOf c Hty Hsc Hsu).
  eexists. split; [reflexivity|]. simpl. now repeat split.
Qed.

Lemma header_round_trip_witness : headerRoundTrip scopedComponents.
Proof.
  apply (header_round_trip scopedComponents).
  - now repeat split.
  - split; [discriminate | reflexivity].
  - split; [discriminate | reflexivity].
  - split; reflexivity.
Defined.

(* ================================================================== *)
(** ** validateHeader: the case of the type                            *)
(* ================================================================== *)

Lemma upper_char_changes (c : ascii) :
  isUpperAscii c = true -> Ascii.eqb c (toLowerCase_char c) = false.
Proof.
  destruct c as [[] [] [] [] [] [] [] []]; vm_compute; congruence.
Qed.

Lemma upper_type_changes (type : str) :
  existsb isUpperAscii type = true -> str_eqb type (toLowerCase type) = false.
Proof.
  induction type as [|c type IH]; simpl; [discriminate|].
  destruct (isUpperAscii c) eqn:Hc; simpl.
  - intros _. now rewrite (upper_char_changes c Hc).
  - intros H. rewrite (IH H). apply andb_false_r.
Qed.

Lemma includes_type (type : str) (validTypes : list str) :
  existsb (str_eqb type) validTypes = true <-> In type validTypes.
Proof.
  rewrite existsb_exists. split.
  - intros (x & Hin & Heq). apply str_eqb_eq in Heq. now subst.
  - intros Hin. exists type. split; [assumption | now apply str_eqb_eq].
Qed.

(** [validateSubject] returns on every non-empty subject. *)
Lemma validateSubject_returns (v : Validator.t) (subject : str) :
  subject <> [] -> returns (Validator.validateSubject v subject).
Proof.
  intros Hne. unfold returns, Validator.validateSubject.
  destruct subject as [|c s]; [congruence|].
  destruct (str_eqb _ _); simpl; eexists; reflexivity.
Qed.

(** C8.  ["FEAT(auth): add login"] is rejected with two errors, the invalid
    type and "Type must be lowercase", which are different texts.  For every
    validator and every header that the pattern matches with a type holding
    an upper case letter, [validateHeader] returns the error "Type must be
    lowercase", after the membership error when the type is not among the
    valid types and first when it is among them. *)
Theorem uppercase_type_is_flagged :
  Validator.validate defaultValidator (js "FEAT(auth): add login")
  = Ok {| Validator.valid := false;
          Validator.errors :=
            [Validator.errInvalidType (js "FEAT")
               (Validator.validTypes defaultValidator);
             js "Type must be lowercase"] |}
  /\ (forall type validTypes,
        Validator.errInvalidType type validTypes <> js "Type must be lowercase")
  /\ forall (v : Validator.t) (header type subject : str) (scope : option str),
       Validator.conventionalPattern header = Some (type, scope, subject) ->
       existsb isUpperAscii type = true ->
       exists membership subjectErrors,
         Validator.validateHeader v header
         = Ok (membership ++ js "Type must be lowercase" :: subjectErrors)
         /\ (In type (Validator.validTypes v) -> membership = [])
         /\ (~ In type (Validator.validTypes v) ->
             membership
             = [Validator.errInvalidType type (Validator.validTypes v)]).
Proof.
  split; [reflexivity|]. split; [discriminate|].
  intros v header type subject scope Hmatch Hupper.
  unfold Validator.validateHeader. rewrite Hmatch.
  apply conventionalPattern_Some in Hmatch as (_ & _ & Hne & _).
  destruct (validateSubject_returns v subject Hne) as [subjectErrors ->].
  rewrite (upper_type_changes type Hupper). simpl.
  eexists; exists subjectErrors. split; [reflexivity|].
  destruct (existsb (str_eqb type) (Validator.validTypes v)) eqn:Hin; simpl.
  - split; [reflexivity|]. intros Hnot. now apply includes_type in Hin.
  - split; [|reflexivity]. intros Hyes. apply includes_type in Hyes. congruence.
Qed.

Lemma uppercase_type_is_flagged_witness :
  exists membership subjectErrors,
    Validator.validateHeader defaultValidator (js "FEAT(auth): add login")
    = Ok (membership ++ js "Type must be lowercase" :: subjectErrors)
    /\ (In (js "FEAT") (Validator.validTypes defaultValidator) ->
        membership = [])
    /\ (~ In (js "FEAT") (Validator.validTypes defaultValidator) ->
        membership
        = [Validator.errInvalidType (js "FEAT")
             (Validator.validTypes defaultValidator)]).
Proof.
  apply (proj2 (proj2 uppercase_type_is_flagged) defaultValidator
           (js "FEAT(auth): add login") (js "FEAT") (js "add login")
           (Some (js "auth")));
    reflexivity.
Defined.

(* ================================================================== *)
(** ** parse: the block after the blank line                           *)
(* ================================================================== *)

Lemma startsWith_prefix (p s : str) :
  startsWith p s = true <-> exists rest, s = p ++ rest.
Proof.
  revert s. induction p as [|a p IH]; intros s; simpl.
  - split; [intros _; now exists s | reflexivity].
  - destruct s as [|b s].
    + split; [discriminate | intros [rest H]; discriminate].
    + rewrite andb_true_iff, Ascii.eqb_eq, IH. split.
      * intros [-> [rest ->]]. now exists rest.
      * intros [rest H]. inversion H; subst. split; [reflexivity | now exists rest].
Qed.

(** [includes] is the occurrence of the text somewhere in the string. *)
Lemma includes_occurrence (p s : str) :
  includes p s = true <-> exists before after, s = before ++ p ++ after.
Proof.
  induction s as [|c s IH]; simpl.
  - rewrite orb_false_r, startsWith_prefix. split.
    + intros [rest H]. now exists [], rest.
    + intros (before & after & H). destruct before; [now exists after|discriminate].
  - rewrite orb_true_iff, IH, startsWith_prefix. split.
    + intros [[rest H] | (before & after & H)].
      * now exists [], rest.
      * exists (c :: before), after. now rewrite H.
    + intros (before & after & H). destruct before as [|d before].
      * left. now exists after.
      * right. inversion H; subst. now exists before, after.
Qed.

Lemma orNull_not_empty (s : str) : orNull s <> Some [].
Proof. destruct s; unfold orNull; simpl; congruence. Qed.

Lemma orNull_not_blank (s : str) : ~ blank s -> orNull (trim s) = Some (trim s).
Proof.
  intros H. apply blank_dec, trim_not_blank in H.
  unfold orNull. now destruct (trim s).
Qed.

Lemma findIndex_none (lines : list str) :
  Forall (fun l => Validator.isFooterStart l = false) lines ->
  findIndex Validator.isFooterStart lines = None.
Proof.
  induction 1 as [|l lines Hl _ IH]; simpl; [reflexivity|].
  now rewrite Hl, IH.
Qed.

Lemma findIndex_first (b f : list str) (l : str) :
  Forall (fun x => Validator.isFooterStart x = false) b ->
  Validator.isFooterStart l = true ->
  findIndex Validator.isFooterStart (b ++ l :: f) = Some (length b).
Proof.
  intros Hb Hl. induction Hb as [|x b Hx _ IH]; simpl.
  - now rewrite Hl.
  - now rewrite Hx, IH.
Qed.

Lemma footerStart_not_blank (l : str) (f : list str) :
  Validator.isFooterStart l = true -> ~ blank (join [nl] (l :: f)).
Proof.
  intros Hl.
  assert (Hnb : ~ blank l).
  { apply blank_dec. destruct l as [|c l]; [discriminate|]. revert Hl.
    destruct c as [[] [] [] [] [] [] [] []]; simpl; try discriminate;
      reflexivity. }
  destruct f as [|x f]; [exact Hnb|]. rewrite join_cons.
  now apply not_blank_app.
Qed.

(** The loop of [parse] stops at the first blank line that has a line after
    it. *)
Lemma bodyStart_from_blank (lines before block : list str) (blankLine : str)
  (i : nat) :
  Forall (fun l => ~ blank l) before -> blank blankLine ->
  i + length before + 1 < length lines ->
  Validator.bodyStart_from lines i (before ++ blankLine :: block)
  = Some (i + length before + 1).
Proof.
  intros Hbefore Hblank. revert i.
  induction Hbefore as [|l before Hl _ IH]; intros i Hlen; simpl.
  - rewrite (trim_blank _ Hblank). simpl.
    replace (i + 1 <? length lines) with true
      by (symmetry; apply Nat.ltb_lt; simpl in Hlen; lia).
    f_equal. lia.
  - apply blank_dec, trim_not_blank in Hl.
    destruct (trim l) eqn:Ht; [congruence|]. simpl.
    simpl in Hlen. rewrite IH by lia. f_equal. lia.
Qed.

Lemma skipn_length_app (A : Type) (a b : list A) : skipn (length a) (a ++ b) = b.
Proof. induction a; simpl; congruence. Qed.

Lemma firstn_length_app (A : Type) (a b : list A) :
  firstn (length a) (a ++ b) = a.
Proof. induction a; simpl; congruence. Qed.

Lemma includes_in_empty (p : str) : p <> [] -> includes p [] = false.
Proof. destruct p; [congruence | reflexivity]. Qed.

(** The test of [parse] on a line holds exactly for the lines that begin
    with one of the four markers. *)
Lemma isFooterStart_markers (line : str) :
  Validator.isFooterStart line = true <-> beginsWithOneOf footerMarkers line.
Proof.
  unfold Validator.isFooterStart.
  rewrite !orb_true_iff, !startsWith_prefix. split.
  - intros [[[H | H] | H] | H];
      [exists (js "BREAKING CHANGE:") | exists (js "Closes")
      | exists (js "Fixes") | exists (js "Refs")];
      (split; [unfold footerMarkers; cbn [map In]; tauto | exact H]).
  - intros (prefix & Hin & H). unfold footerMarkers in Hin.
    cbn [map In] in Hin. unfold beginsWith in H.
    destruct Hin as [<- | [<- | [<- | [<- | []]]]]; tauto.
Qed.

Lemma not_marker_lines (lines : list str) :
  Forall (fun l => ~ beginsWithOneOf footerMarkers l) lines ->
  Forall (fun l => Validator.isFooterStart l = false) lines.
Proof.
  intros H. eapply Forall_impl; [|exact H]. intros l Hl. simpl in Hl.
  destruct (Validator.isFooterStart l) eqn:Hstart; [|reflexivity].
  now apply isFooterStart_markers in Hstart.
Qed.

(** C2.  Let the first line of a message match the header pattern and let
    its other lines be [before], without a blank line, then a blank line,
    then a non-empty [block].  [parse] returns an object such that: when no
    line of [block] begins with "BREAKING CHANGE:", "Closes", "Fixes" or
    "Refs", the body is the trimmed block and the footer is null; when [l] is
    the first line that begins with one of these four texts, the body is the
    trimmed text before [l] and the footer is the trimmed text from [l] on;
    [breaking] is true exactly when the footer holds "BREAKING CHANGE:"; and
    none of scope, body and footer is the empty string. *)
Theorem parse_trailing_block
  (message header blankLine type subject : str) (scope : option str)
  (before block : list str) :
  let markers := map js ["BREAKING CHANGE:"; "Closes"; "Fixes"; "Refs"]%string in
  split nl message = header :: before ++ blankLine :: block ->
  Validator.conventionalPattern header = Some (type, scope, subject) ->
  Forall (fun l => ~ blank l) before -> blank blankLine -> block <> [] ->
  exists r,
    Validator.parse message = Some r
    /\ (Forall (fun l => ~ beginsWithOneOf markers l) block ->
        Validator.body r = orNull (trim (join [nl] block))
        /\ Validator.footer r = None)
    /\ (forall (b f : list str) (l : str),
          block = b ++ l :: f ->
          Forall (fun x => ~ beginsWithOneOf markers x) b ->
          beginsWithOneOf markers l ->
          Validator.body r = orNull (trim (join [nl] b))
          /\ Validator.footer r = Some (trim (join [nl] (l :: f))))
    /\ (Validator.breaking r = true <->
        exists f, Validator.footer r = Some f
                  /\ occursIn (js "BREAKING CHANGE:") f)
    /\ Validator.scope r <> Some []
    /\ Validator.body r <> Some []
    /\ Validator.footer r <> Some [].
Proof.
  intros markers Hsplit Hmatch Hbefore Hblank Hblock.
  change markers with footerMarkers. clear markers.
  assert (Hstart : Validator.bodyStartIndex (header :: before ++ blankLine :: block)
                   = Some (1 + length before + 1)).
  { unfold Validator.bodyStartIndex. simpl skipn.
    apply bodyStart_from_blank; try assumption.
    simpl. rewrite length_app. simpl.
    destruct block; [congruence | simpl; lia]. }
  assert (Hskip : skipn (1 + length before + 1)
                    (header :: before ++ blankLine :: block) = block).
  { replace (1 + length before + 1)
      with (length (header :: before ++ [blankLine]))
      by (simpl; rewrite length_app; simpl; lia).
    replace (header :: before ++ blankLine :: block)
      with ((header :: before ++ [blankLine]) ++ block)
      by (simpl; now rewrite <- app_assoc).
    apply skipn_length_app. }
  assert (Hscope : scope <> Some []).
  { apply conventionalPattern_Some in Hmatch as (_ & Hsc & _).
    destruct scope as [sc|]; [|discriminate].
    destruct Hsc as [Hne _]. congruence. }
  unfold Validator.parse. rewrite Hsplit. simpl hd.
  rewrite Hmatch, Hstart, Hskip.
  destruct (findIndex Validator.isFooterStart block) as [k|] eqn:Hfind.
  - eexists. split; [reflexivity|]. simpl.
    split; [|split; [|split; [|split; [|split]]]].
    + intros Hnone. apply not_marker_lines in Hnone.
      rewrite (findIndex_none block Hnone) in Hfind. discriminate.
    + intros b f l -> Hb Hl.
      apply not_marker_lines in Hb. apply isFooterStart_markers in Hl.
      rewrite (findIndex_first b f l Hb Hl) in Hfind.
      injection Hfind as <-.
      rewrite firstn_length_app, skipn_length_app. split; [reflexivity|].
      apply orNull_not_blank. now apply footerStart_not_blank.
    + destruct (trim (join [nl] (skipn k block))) as [|c rest] eqn:Hfooter.
      * rewrite includes_in_empty by discriminate. split; [discriminate|].
        intros (f & Hf & _). discriminate.
      * unfold orNull. simpl nonEmpty. rewrite includes_occurrence. split.
        -- intros H. now exists (c :: rest).
        -- intros (f & Hf & H). now injection Hf as <-.
    + assumption.
    + apply orNull_not_empty.
    + apply orNull_not_empty.
  - eexists. split; [reflexivity|]. simpl.
    split; [|split; [|split; [|split; [|split]]]].
    + intros _. split; reflexivity.
    + intros b f l -> Hb Hl.
      apply not_marker_lines in Hb. apply isFooterStart_markers in Hl.
      rewrite (findIndex_first b f l Hb Hl) in Hfind. discriminate.
    + split; [discriminate|]. intros (f & Hf & _). discriminate.
    + assumption.
    + apply orNull_not_empty.
    + discriminate.
Qed.

Lemma parse_trailing_block_witness :
  exists r,
    Validator.parse
      (join [nl] [js "feat(auth): add login"; []; js "Use tokens.";
                  js "Fixes #7"; js "BREAKING CHANGE: new endpoint";
                  js "Refs #9"])
    = Some r
    /\ Validator.body r = Some (js "Use tokens.")
    /\ Validator.footer r
       = Some (join [nl] [js "Fixes #7"; js "BREAKING CHANGE: new endpoint";
                          js "Refs #9"])
    /\ Validator.breaking r = true.
Proof.
  destruct (parse_trailing_block
              (join [nl] [js "feat(auth): add login"; []; js "Use tokens.";
                          js "Fixes #7"; js "BREAKING CHANGE: new endpoint";
                          js "Refs #9"])
              (js "feat(auth): add login") [] (js "feat") (js "add login")
              (Some (js "auth")) []
              [js "Use tokens."; js "Fixes #7";
               js "BREAKING CHANGE: new endpoint"; js "Refs #9"]
              eq_refl eq_refl (Forall_nil _) eq_refl)
    as (r & Hparse & _ & Hsplit & Hbreaking & _).
  - discriminate.
  - exists r. split; [exact Hparse|].
    destruct (Hsplit [js "Use tokens."]
                [js "BREAKING CHANGE: new endpoint"; js "Refs #9"]
                (js "Fixes #7"))
      as [Hbody Hfooter].
    + reflexivity.
    + constructor; [|constructor].
      intros H. apply isFooterStart_markers in H. discriminate.
    + exists (js "Fixes"). split; [simpl; tauto | now exists (js " #7")].
    + split; [exact Hbody|]. split; [exact Hfooter|].
      apply Hbreaking. eexists. split; [exact Hfooter|].
      now exists (js "Fixes #7" ++ [nl]), (js " new endpoint" ++ nl :: js "Refs #9").
Defined.

(* ================================================================== *)
(** ** wrapText                                                        *)
(* ================================================================== *)

Lemma wrapStep_wrapped (maxLength : nat) (words : list str) (word : str)
  (lines : list str) (currentLine : str) :
  In word words ->
  Forall (wrapped maxLength words) lines ->
  wrapped maxLength words currentLine ->
  let st := Formatter.wrapStep maxLength (lines, currentLine) word in
  Forall (wrapped maxLength words) (fst st)
  /\ wrapped maxLength words (snd st).
Proof.
  intros Hword Hlines Hcurrent. unfold Formatter.wrapStep.
  destruct (length (currentLine ++ word) <=? maxLength) eqn:Hfit; simpl.
  - split; [assumption|]. left. apply Nat.leb_le in Hfit.
    rewrite length_app in *. rewrite length_app.
    destruct currentLine; simpl in *; lia.
  - split; [|now right].
    destruct (nonEmpty currentLine); [|assumption].
    apply Forall_app. split; [assumption | now constructor].
Qed.

Lemma wrap_fold_wrapped (maxLength : nat) (words : list str) :
  forall (rest : list str) (st : list str * str),
    incl rest words ->
    Forall (wrapped maxLength words) (fst st) ->
    wrapped maxLength words (snd st) ->
    let final := fold_left (Formatter.wrapStep maxLength) rest st in
    Forall (wrapped maxLength words) (fst final)
    /\ wrapped maxLength words (snd final).
Proof.
  induction rest as [|word rest IH]; intros [lines currentLine] Hincl Hl Hc.
  - now split.
  - simpl fold_left. apply IH.
    + intros x Hx. apply Hincl. now right.
    + apply wrapStep_wrapped; try assumption. apply Hincl. now left.
    + apply wrapStep_wrapped; try assumption. apply Hincl. now left.
Qed.

(** What [wrapText] does guarantee: a line is a word of the text, or it is
    at most one character longer than [maxLength]. *)
Lemma wrapLines_wrapped (text : str) (maxLength : nat) :
  Forall (wrapped maxLength (split sp text))
    (Formatter.wrapLines text maxLength).
Proof.
  unfold Formatter.wrapLines.
  destruct (nonEmpty text); simpl; [|constructor].
  pose proof (wrap_fold_wrapped maxLength (split sp text) (split sp text)
                ([], []) (incl_refl _) (Forall_nil _)
                (or_introl (Nat.le_0_l _))) as H.
  cbv zeta in H.
  destruct (fold_left (Formatter.wrapStep maxLength) (split sp text) ([], []))
    as [lines currentLine].
  destruct H as [Hlines Hcurrent]. simpl in *.
  destruct (nonEmpty currentLine); [|assumption].
  apply Forall_app. split; [assumption | now constructor].
Qed.

(** C3: the code against the specification.  [wrapText("ab c", 3)] is the line
    "ab c": four characters, two words.  The test of [wrapText] measures the
    line and the next word without the space that joins them.  The example of
    the specification, [wrapText("a b c d", 3)], does give lines of three
    characters;
    and the validator of the same program rejects a body that [format]
    wrapped at 100 into a line of 101 characters. *)
Theorem wrapText_overflows_by_the_space :
  Formatter.wrapLines (js "ab c") 3 = [js "ab c"]
  /\ Formatter.wrapText (js "ab c") 3 = js "ab c"
  /\ length (js "ab c") = 4
  /\ split sp (js "ab c") = [js "ab"; js "c"]
  /\ Formatter.wrapLines (js "a b c d") 3 = [js "a b"; js "c d"]
  /\ Formatter.wrapLines twoLongWords 100 = [twoLongWords]
  /\ length twoLongWords = 101
  /\ Validator.validate defaultValidator (Formatter.format longBodyComponents)
     = Ok {| Validator.valid := false;
             Validator.errors := [Validator.errBodyLine 1 101 100] |}
  /\ ~ (forall text maxLength,
          0 < maxLength ->
          Forall (withinWidth maxLength (split sp text))
            (Formatter.wrapLines text maxLength)).
Proof.
  repeat split; try (vm_compute; reflexivity).
  intros H. specialize (H (js "ab c") 3 (Nat.lt_0_succ 2)).
  inversion H as [|line rest [Hlen | [Hword _]] _]; subst.
  - vm_compute in Hlen. lia.
  - destruct Hword as [Hw | [Hw | []]]; discriminate.
Qed.

(* ================================================================== *)
(** ** analyzeSubject                                                  *)
(* ================================================================== *)

(** On a non-empty subject [analyzeSubject] returns, and [valid] is true
    exactly when there is no suggestion. *)
Lemma analyzeSubject_non_empty (c : ascii) (subject : str) :
  exists a, Formatter.analyzeSubject (c :: subject) = Ok a
            /\ (Formatter.valid a = true <-> Formatter.suggestions a = []).
Proof.
  unfold Formatter.analyzeSubject. simpl Result.bind. cbv zeta.
  eexists. split; [reflexivity|]. simpl Formatter.valid.
  simpl Formatter.suggestions.
  destruct (_ ++ _ ++ _ ++ _) as [|x l]; simpl; split; congruence.
Qed.

(** C4: the code against the specification.  On the empty string
    [analyzeSubject]
    reads [subject[0].toUpperCase()] with [subject[0]] undefined and raises
    [TypeError]: it returns no result at all. *)
Theorem analyzeSubject_empty_throws :
  Formatter.analyzeSubject [] = Throw TypeError
  /\ ~ returns (Formatter.analyzeSubject []).
Proof.
  split; [reflexivity|]. intros [a H]. discriminate.
Qed.

(* ================================================================== *)
(** ** The constructor and the valid types                             *)
(* ================================================================== *)

(** The rules are the defaults with the overrides on top. *)
Lemma new_config (o : Validator.Overrides) :
  Validator.config (Validator.new o) = Validator.spread Defaults.rules o.
Proof. reflexivity. Qed.

(** C5: the code against the specification.  The constructor takes
    [validTypes] from
    the defaults whatever the overrides hold, so a validator built with a
    [types] list that has "wip" keeps this list in its configuration and
    still rejects the type "wip". *)
Theorem validTypes_ignore_overrides :
  (forall o, Validator.validTypes (Validator.new o)
             = map js ["feat"; "fix"; "docs"; "style"; "refactor"; "perf";
                       "test"; "build"; "ci"; "chore"; "revert"]%string)
  /\ Validator.types (Validator.config (Validator.new wipOverrides))
     = Some [ {| Defaults.value := js "wip" |} ]
  /\ Validator.validate (Validator.new wipOverrides) (js "wip: add thing")
     = Ok {| Validator.valid := false;
             Validator.errors :=
               [Validator.errInvalidType (js "wip")
                  (Validator.validTypes defaultValidator)] |}.
Proof. repeat split. Qed.

(* ================================================================== *)
(** ** autoFormat                                                      *)
(* ================================================================== *)

(** C6, as the specification states it, fails: the subject is not
    "login bug". *)
Lemma autoFormat_fixed_counterexample :
  Formatter.autoFormat (js "fixed login bug") None
  <> {| Formatter.af_type := js "fix";
        Formatter.af_subject := js "login bug";
        Formatter.af_confidence := js "medium" |}.
Proof. vm_compute. discriminate. Qed.

(** C6, amended.  [autoFormat("fixed login bug")] without a detected type
    returns the type "fix", found by the keyword "fix", the subject
    "fixed login bug" and the confidence "medium": the prefix is removed only
    when a colon follows it, as in "fixed: login bug" and "Fixed:login bug",
    whose subject is "login bug". *)
Theorem autoFormat_fixed :
  Formatter.autoFormat (js "fixed login bug") None
  = {| Formatter.af_type := js "fix";
       Formatter.af_subject := js "fixed login bug";
       Formatter.af_confidence := js "medium" |}
  /\ Formatter.detectType (js "fixed login bug") = Some (js "fix")
  /\ Formatter.autoFormat (js "fixed: login bug") None
     = {| Formatter.af_type := js "fix";
          Formatter.af_subject := js "login bug";
          Formatter.af_confidence := js "medium" |}
  /\ Formatter.autoFormat (js "Fixed:login bug") None
     = {| Formatter.af_type := js "fix";
          Formatter.af_subject := js "login bug";
          Formatter.af_confidence := js "medium" |}.
Proof. repeat split. Qed.

(* ================================================================== *)
(** ** validate after format                                           *)
(* ================================================================== *)

Lemma defaultType_token (type : str) :
  defaultType type -> isToken type /\ toLowerCase type = type.
Proof.
  unfold defaultType. simpl.
  intros H.
  repeat (destruct H as [<-|H];
          [split; [split; [discriminate|]|]; reflexivity|]).
  destruct H.
Qed.

Lemma token_not_blank (type rest : str) : isToken type -> ~ blank (type ++ rest).
Proof.
  intros [Hne Hword]. apply blank_dec. destruct type as [|c type]; [congruence|].
  simpl in *. apply andb_prop in Hword as [Hc _].
  replace (isSpace c) with false; [reflexivity|].
  revert Hc. clear. destruct c as [[] [] [] [] [] [] [] []]; vm_compute; congruence.
Qed.

Lemma join_head (sep p : str) (rest : list str) :
  exists tail, join sep (p :: rest) = p ++ tail.
Proof.
  destruct rest as [|q rest].
  - exists []. simpl. now rewrite app_nil_r.
  - eexists. reflexivity.
Qed.

Lemma validateBody_from_fits (v : Validator.t) (lines : list str) (index : nat) :
  Forall (fun l => length l <= Validator.maxLineLength (Validator.config v)) lines ->
  Validator.validateBody_from v index lines = [].
Proof.
  intros H. revert index. induction H as [|l lines Hl _ IH]; intros index; simpl.
  - reflexivity.
  - replace (_ <? length l) with false
      by (symmetry; apply Nat.ltb_ge; exact Hl).
    apply IH.
Qed.

Lemma Forall_skipn_of (A : Type) (P : A -> Prop) (n : nat) (l : list A) :
  Forall P l -> Forall P (skipn n l).
Proof.
  revert l. induction n as [|n IH]; intros l H; simpl; [assumption|].
  destruct H; [constructor | now apply IH].
Qed.

Lemma Forall_concat_split (n : nat) (parts : list str) :
  Forall (linesWithin n) parts ->
  Forall (fun l => length l <= n) (concat (map (split nl) parts)).
Proof.
  induction 1 as [|p parts Hp _ IH]; simpl; [constructor|].
  apply Forall_app. now split.
Qed.

(** The default validator accepts the header of well-formed components. *)
Lemma validateHeader_headerOf (c : Formatter.CommitComponents) :
  defaultType (Formatter.type c) -> scopeOK (Formatter.scope c) ->
  statedSubject (Formatter.subject c) -> plainSubject (Formatter.subject c) ->
  3 <= length (Formatter.subject c) ->
  Validator.validateHeader defaultValidator (headerOf c) = Ok [].
Proof.
  intros Htype Hscope (Hne & Hlower & Hmax & Hperiod & Hmood) Hplain Hmin.
  destruct (defaultType_token _ Htype) as [Htoken Hcase].
  unfold Validator.validateHeader.
  rewrite (conventionalPattern_headerOf c Htoken Hscope Hplain).
  replace (existsb (str_eqb (Formatter.type c))
             (Validator.validTypes defaultValidator)) with true
    by (symmetry; now apply includes_type).
  rewrite Hcase.
  replace (str_eqb (Formatter.type c) (Formatter.type c)) with true
    by (symmetry; now apply str_eqb_eq).
  unfold Validator.validateSubject. simpl Validator.config.
  cbn [Validator.maxSubjectLength Validator.minSubjectLength
       Validator.enforceImperative Validator.subjectCase Validator.spread
       Validator.override Validator.noOverrides Validator.o_maxSubjectLength
       Validator.o_minSubjectLength Validator.o_enforceImperative
       Validator.o_subjectCase Defaults.rules Defaults.maxSubjectLength
       Defaults.minSubjectLength Defaults.enforceImperative
       Defaults.subjectCase].
  replace (72 <? length (Formatter.subject c)) with false
    by (symmetry; apply Nat.ltb_ge; exact Hmax).
  replace (length (Formatter.subject c) <? 3) with false
    by (symmetry; apply Nat.ltb_ge; exact Hmin).
  rewrite Hperiod, Hmood.
  replace (str_eqb (js "lowercase") (js "lowercase")) with true by reflexivity.
  destruct (Formatter.subject c) as [|c0 s]; [congruence|].
  simpl in Hlower. rewrite Hlower, Ascii.eqb_refl. reflexivity.
Qed.

(** C1, as the specification states it, fails: a subject of two characters
    meets every stated condition and is rejected as too short. *)
Lemma format_validate_counterexample :
  defaultType (Formatter.type shortSubjectComponents)
  /\ statedSubject (Formatter.subject shortSubjectComponents)
  /\ Validator.validate defaultValidator (Formatter.format shortSubjectComponents)
     = Ok {| Validator.valid := false;
             Validator.errors := [Validator.errTooShort 2 3] |}
  /\ Validator.validate defaultValidator (Formatter.format shortSubjectComponents)
     <> accepted.
Proof.
  split; [now left|]. split.
  - repeat split; [discriminate | simpl; lia].
  - split; [reflexivity | vm_compute; discriminate].
Qed.

(** C1, amended.  With the default rule configuration,
    [validate(format(c))] is [{ valid: true, errors: [] }] for every [c]
    whose type is one of the default valid types, whose scope is absent or a
    non-empty string of word characters and hyphens, whose subject is
    lowercase-first, between 3 and 72 characters long, without trailing
    period, without recognized inflection at its start, without white space
    at its start and without line terminator, and in whose message every line
    after the header (the wrapped body, the breaking line, the footer) has at
    most 100 characters. *)
Theorem format_validate_round_trip (c : Formatter.CommitComponents) :
  defaultType (Formatter.type c) -> scopeOK (Formatter.scope c) ->
  statedSubject (Formatter.subject c) -> plainSubject (Formatter.subject c) ->
  3 <= length (Formatter.subject c) ->
  trailerFits c ->
  Validator.validate defaultValidator (Formatter.format c) = accepted.
Proof.
  intros Htype Hscope Hsubject Hplain Hmin Hfits.
  destruct (defaultType_token _ Htype) as [Htoken _].
  rewrite format_parts, validate_not_blank.
  - rewrite split_join. cbn [map concat].
    rewrite (split_line nl _ (headerOf_isLine c Htoken Hscope Hplain)).
    cbn [app hd].
    rewrite (validateHeader_headerOf c Htype Hscope Hsubject Hplain Hmin).
    cbn [Result.bind app].
    assert (Hbody :
              Validator.validateBody defaultValidator
                (skipn 2 (headerOf c :: concat (map (split nl) (trailer c))))
              = []).
    { change (skipn 2 (headerOf c :: concat (map (split nl) (trailer c))))
        with (skipn 1 (concat (map (split nl) (trailer c)))).
      apply validateBody_from_fits, Forall_skipn_of.
      now apply Forall_concat_split. }
    rewrite Hbody. now destruct (2 <? _).
  - destruct (join_head [nl] (headerOf c) (trailer c)) as [tail ->].
    unfold headerOf. rewrite <- app_assoc. now apply token_not_blank.
Qed.

Lemma format_validate_round_trip_witness :
  Validator.validate defaultValidator (Formatter.format fullComponents)
  = accepted.
Proof.
  apply (format_validate_round_trip fullComponents).
  - right. left. reflexivity.
  - split; [discriminate | reflexivity].
  - repeat split; [discriminate | simpl; lia].
  - split; reflexivity.
  - simpl. lia.
  - unfold trailerFits, linesWithin.
    let t := eval vm_compute in (trailer fullComponents) in
    change (trailer fullComponents) with t.
    repeat (constructor;
            [simpl split; repeat (constructor; [simpl; lia|]); constructor|]).
    constructor.
Defined.

(** The end-to-end scenario of the specification. *)
Example format_scenario :
  Formatter.format
    {| Formatter.type := js "fix"; Formatter.scope := Some (js "auth");
       Formatter.subject := js "resolve login timeout issue";
       Formatter.body := None; Formatter.breaking := None;
       Formatter.footer := Some (js "Closes #42") |}
  = js "fix(auth): resolve login timeout issue" ++ [nl; nl] ++ js "Closes #42".
Proof. reflexivity. Qed.

(* ================================================================== *)
(** ** The unit tests of the repository                                *)
(* ================================================================== *)

Example test_validate :
  Validator.validate defaultValidator (js "feat(auth): add login functionality")
  = accepted
  /\ Validator.validate defaultValidator (js "feat: add login") = accepted
  /\ Validator.validate defaultValidator (js "feat(auth): add login.")
     = Ok {| Validator.valid := false;
             Validator.errors := [js "Subject must not end with a period"] |}
  /\ Validator.validate defaultValidator (js "feat(auth): added login")
     = Ok {| Validator.valid := false;
             Validator.errors := [Validator.errImperative] |}
  /\ Validator.validate defaultValidator (js "invalid(auth): something")
     = Ok {| Validator.valid := false;
             Validator.errors :=
               [Validator.errInvalidType (js "invalid")
                  (Validator.validTypes defaultValidator)] |}
  /\ Validator.validate defaultValidator
       (js "feat(auth): " ++ repeat "a"%char 80)
     = Ok {| Validator.valid := false;
             Validator.errors := [Validator.errTooLong 80 72] |}
  /\ Validator.validate defaultValidator
       (join [nl] [js "feat(auth): add login"; [];
                   js "This is a longer description of the feature.";
                   js "It spans multiple lines."])
     = accepted.
Proof. repeat split. Qed.

Example test_validateHeader_validateSubject :
  Validator.validateHeader defaultValidator (js "feat(auth): add login") = Ok []
  /\ Validator.validateHeader defaultValidator (js "this is not a valid header")
     = Ok [js "Header must follow format: type(scope): subject"]
  /\ Validator.validateSubject defaultValidator (js "add user authentication")
     = Ok []
  /\ Validator.validateSubject defaultValidator (js "ab")
     = Ok [Validator.errTooShort 2 3]
  /\ Validator.validateBody defaultValidator
       [js "This is a normal line."; js "This is another normal line."] = []
  /\ Validator.validateBody defaultValidator [repeat "a"%char 120]
     = [Validator.errBodyLine 1 120 100].
Proof. repeat split. Qed.

Example test_isImperative :
  map Validator.isImperative
    (map js ["add feature"; "fix bug"; "update docs"; "remove file";
             "adds feature"; "adding feature"; "added feature"; "fixes bug";
             "fixed bug"]%string)
  = [true; true; true; true; false; false; false; false; false].
Proof. reflexivity. Qed.

Example test_parse :
  Validator.parse (js "fix: resolve bug")
  = Some {| Validator.type := js "fix"; Validator.scope := None;
            Validator.subject := js "resolve bug"; Validator.body := None;
            Validator.footer := None; Validator.breaking := false |}
  /\ Validator.parse (js "this is not valid") = None
  /\ Validator.parse
       (join [nl] [js "feat(auth): add login functionality"; [];
                   js "Implemented JWT-based authentication.";
                   js "Added tests and documentation."; [];
                   js "BREAKING CHANGE: Changed auth endpoint";
                   js "Closes #123"])
     = Some {| Validator.type := js "feat"; Validator.scope := Some (js "auth");
               Validator.subject := js "add login functionality";
               Validator.body :=
                 Some (join [nl] [js "Implemented JWT-based authentication.";
                                  js "Added tests and documentation."]);
               Validator.footer :=
                 Some (join [nl] [js "BREAKING CHANGE: Changed auth endpoint";
                                  js "Closes #123"]);
               Validator.breaking := true |}.
Proof. repeat split. Qed.

Example test_custom_config :
  Validator.validate (Validator.new max50Overrides)
    (js "feat: " ++ repeat "a"%char 60)
  = Ok {| Validator.valid := false;
          Validator.errors := [Validator.errTooLong 60 50] |}
  /\ Validator.validate (Validator.new anyMoodOverrides)
       (js "feat: added feature")
     = accepted.
Proof. repeat split. Qed.

(* ================================================================== *)
(** ** validate and its parts: further properties                      *)
(* ================================================================== *)

(** X1.  [validateHeader] and [validate] never raise, whatever the
    configuration and the text: the subject that the pattern hands to
    [validateSubject] is never empty. *)
Theorem validate_never_throws (v : Validator.t) (text : str) :
  returns (Validator.validateHeader v text)
  /\ returns (Validator.validate v text).
Proof.
  assert (Hheader : forall h, returns (Validator.validateHeader v h)).
  { intros h. unfold Validator.validateHeader.
    destruct (Validator.conventionalPattern h) as [[[type scope] subject]|]
      eqn:Hmatch; [|now eexists].
    apply conventionalPattern_Some in Hmatch as (_ & _ & Hne & _).
    destruct (validateSubject_returns v subject Hne) as [errs ->].
    now eexists. }
  split; [apply Hheader|].
  unfold Validator.validate.
  destruct (_ || _); [now eexists|].
  destruct (Hheader (hd [] (split nl text))) as [errs ->]. now eexists.
Qed.

(** X2.  [validateSubject] called on its own returns exactly when the
    subject is not empty or the case policy is not "lowercase": with that
    policy, the default one, the empty subject raises [TypeError]. *)
Theorem validateSubject_returns_iff (v : Validator.t) (subject : str) :
  returns (Validator.validateSubject v subject)
  <-> (subject <> []
       \/ Validator.subjectCase (Validator.config v) <> js "lowercase").
Proof.
  split.
  - intros [errs H]. destruct subject as [|c s]; [|left; discriminate].
    right. intros Hcase. unfold Validator.validateSubject in H.
    rewrite Hcase in H. discriminate.
  - intros [Hne | Hcase]; [now apply validateSubject_returns|].
    unfold returns, Validator.validateSubject.
    destruct (str_eqb _ (js "lowercase")) eqn:Heq.
    + apply str_eqb_eq in Heq. congruence.
    + now eexists.
Qed.

(** X3.  [validateBody] reports one error for each line longer than
    [maxLineLength] and nothing else: there are as many errors as such
    lines, and none exactly when every line fits. *)
Theorem validateBody_count (v : Validator.t) (bodyLines : list str) :
  length (Validator.validateBody v bodyLines)
  = length (filter (fun line =>
                      Validator.maxLineLength (Validator.config v)
                      <? length line) bodyLines)
  /\ (Validator.validateBody v bodyLines = [] <->
      Forall (fun line =>
                length line <= Validator.maxLineLength (Validator.config v))
        bodyLines).
Proof.
  unfold Validator.validateBody. generalize 0 as index.
  induction bodyLines as [|line rest IH]; intros index; simpl.
  - split; [reflexivity|]. split; [constructor | reflexivity].
  - destruct (IH (index + 1)) as [IHlen IHnil].
    destruct (_ <? length line) eqn:Hlong; simpl.
    + split; [now rewrite IHlen|]. split; [discriminate|].
      intros H. inversion H; subst. apply Nat.ltb_lt in Hlong. lia.
    + split; [assumption|]. rewrite IHnil. apply Nat.ltb_ge in Hlong.
      split; [now constructor | intros H; now inversion H].
Qed.

Lemma validateSubject_errors (v : Validator.t) (subject : str) (errs : list str) :
  Validator.validateSubject v subject = Ok errs ->
  Forall (fun e => hd sp e = "S"%char) errs.
Proof.
  unfold Validator.validateSubject.
  destruct (_ <? length subject), (length subject <? _),
    (endsWith_char _ subject), (Validator.enforceImperative _),
    (Validator.isImperative subject), (str_eqb _ _), subject as [|c s];
    try discriminate; simpl; try destruct (negb _);
    intros H; inversion H; subst; repeat constructor.
Qed.

Lemma validateBody_from_errors (v : Validator.t) (lines : list str) (index : nat) :
  Forall (fun e => hd sp e = "B"%char) (Validator.validateBody_from v index lines).
Proof.
  revert index. induction lines as [|line rest IH]; intros index; simpl.
  - constructor.
  - destruct (_ <? length line); simpl; [constructor; [reflexivity|]|]; apply IH.
Qed.

(** X4.  [parse] and [validate] agree on the header: for a message that is
    not blank, [parse] returns null exactly when the errors of [validate]
    hold "Header must follow format: type(scope): subject". *)
Theorem parse_null_iff_header_error (v : Validator.t) (message : str) :
  ~ blank message ->
  exists r,
    Validator.validate v message = Ok r
    /\ (Validator.parse message = None <->
        In (js "Header must follow format: type(scope): subject")
          (Validator.errors r)).
Proof.
  intros Hnb. rewrite (validate_not_blank v message Hnb). cbv zeta.
  unfold Validator.parse, Validator.validateHeader.
  destruct (Validator.conventionalPattern (hd [] (split nl message)))
    as [[[type scope] subject]|] eqn:Hmatch.
  - apply conventionalPattern_Some in Hmatch as (_ & _ & Hne & _).
    destruct (Validator.validateSubject v subject) as [errs|e] eqn:Hsubject.
    + eexists. split; [reflexivity|]. simpl Validator.errors.
      split.
      * destruct (Validator.bodyStartIndex _); [|discriminate].
        destruct (findIndex _ _); discriminate.
      * intros Hin. exfalso.
        apply validateSubject_errors in Hsubject.
        rewrite !in_app_iff in Hin.
        destruct Hin as [[Hin | [Hin | Hin]] | Hin].
        -- destruct (negb (existsb _ _)); [|destruct Hin].
           destruct Hin as [Heq|[]].
           apply (f_equal (hd sp)) in Heq. discriminate.
        -- destruct (negb (str_eqb _ _)); [|destruct Hin].
           destruct Hin as [Heq|[]]. discriminate.
        -- rewrite Forall_forall in Hsubject.
           specialize (Hsubject _ Hin). discriminate.
        -- destruct (2 <? _); [|destruct Hin].
           pose proof (validateBody_from_errors v
                         (skipn 2 (split nl message)) 0) as Hbody.
           rewrite Forall_forall in Hbody.
           specialize (Hbody _ Hin). discriminate.
    + destruct (validateSubject_returns v subject Hne) as [errs H].
      congruence.
  - eexists. split; [reflexivity|]. simpl Validator.errors.
    split; [intros _; now left | reflexivity].
Qed.

Lemma parse_null_iff_header_error_witness :
  exists r,
    Validator.validate defaultValidator (js "this is not valid") = Ok r
    /\ (Validator.parse (js "this is not valid") = None <->
        In (js "Header must follow format: type(scope): subject")
          (Validator.errors r)).
Proof.
  apply (parse_null_iff_header_error defaultValidator (js "this is not valid")).
  vm_compute. discriminate.
Defined.

(** X5.  The header pattern matches with a given type and scope exactly the
    headers made of that type, a non-empty string of word characters, then
    the scope between parentheses when there is one, a non-empty string of
    word characters and hyphens, then a colon, white space, and a non-empty
    text without line terminator. *)
Theorem header_pattern_shape (header type : str) (scope : option str) :
  (exists subject,
     Validator.conventionalPattern header = Some (type, scope, subject))
  <-> (exists subject, headerShape header type scope subject).
Proof.
  split; intros [subject H].
  - exists subject. now apply conventionalPattern_Some.
  - now apply (conventionalPattern_complete header type subject scope).
Qed.

(* ================================================================== *)
(** ** isImperative and toImperative                                   *)
(* ================================================================== *)

Lemma startsWith_ci_mismatch (w r rest : str) :
  mismatch w r = true -> startsWith_ci w (r ++ rest) = false.
Proof.
  revert r. induction w as [|a w IH]; intros [|b r]; simpl; try discriminate.
  destruct (eqb_ci a b); simpl; [apply IH | reflexivity].
Qed.

Lemma leads_mismatch (w r rest : str) :
  mismatch w r = true -> Validator.leads w (r ++ rest) = false.
Proof.
  intros H. unfold Validator.leads.
  now rewrite (startsWith_ci_mismatch w r rest H).
Qed.

(** No word of the chain leads a text that starts with one of the
    replacements. *)
Lemma rewrites_settled (e e0 : str * str) :
  In e Validator.imperativeRewrites -> In e0 Validator.imperativeRewrites ->
  mismatch (fst e) (snd e0) = true.
Proof.
  assert (H : forallb (fun e =>
                forallb (fun e0 => mismatch (fst e) (snd e0))
                  Validator.imperativeRewrites)
                Validator.imperativeRewrites = true) by (vm_compute; reflexivity).
  rewrite forallb_forall in H. intros He He0.
  specialize (H e He). rewrite forallb_forall in H. now apply H.
Qed.

Lemma fold_rewrite_settled (table : list (str * str)) (r rest : str) :
  (forall e, In e table -> mismatch (fst e) r = true) ->
  fold_left rewriteStep table (r ++ rest) = r ++ rest.
Proof.
  induction table as [|e table IH]; intros H; simpl; [reflexivity|].
  unfold rewriteStep at 2, Validator.replaceLead.
  rewrite (leads_mismatch (fst e) r rest (H e (or_introl eq_refl))).
  apply IH. intros e' He'. apply H. now right.
Qed.

(** The chain over a part of the table: nothing changes when none of its
    words leads the text; otherwise the first that does is replaced and the
    rest of the chain changes nothing. *)
Lemma fold_rewrite_cases (table : list (str * str)) (s : str) :
  incl table Validator.imperativeRewrites ->
  (Forall (fun e => Validator.leads (fst e) s = false) table
   /\ fold_left rewriteStep table s = s)
  \/ (exists e, In e table /\ Validator.leads (fst e) s = true
                /\ fold_left rewriteStep table s
                   = snd e ++ skipn (length (fst e) + 1) s).
Proof.
  induction table as [|e table IH]; intros Hincl; simpl.
  - left. now split.
  - assert (Hrest : incl table Validator.imperativeRewrites)
      by (intros x Hx; apply Hincl; now right).
    unfold rewriteStep at 2 4, Validator.replaceLead.
    destruct (Validator.leads (fst e) s) eqn:Hleads.
    + right. exists e. split; [now left|]. split; [assumption|].
      apply fold_rewrite_settled. intros e' He'.
      apply rewrites_settled; [now apply Hrest | apply Hincl; now left].
    + destruct (IH Hrest) as [[Hnone Hfold] | (e' & He' & Hl & Hfold)].
      * left. split; [now constructor | assumption].
      * right. exists e'. split; [now right|]. now split.
Qed.

Lemma existsb_concat (A : Type) (p : A -> bool) (ls : list (list A)) :
  existsb (fun l => existsb p l) ls = existsb p (concat ls).
Proof.
  induction ls as [|l ls IH]; simpl; [reflexivity|].
  now rewrite existsb_app, IH.
Qed.

(** [isImperative] in terms of the table of [toImperative]: the words are
    the same. *)
Lemma isImperative_leads (s : str) :
  Validator.isImperative s
  = negb (existsb (fun e => Validator.leads (fst e) s)
            Validator.imperativeRewrites).
Proof.
  unfold Validator.isImperative.
  change (fun pattern => Validator.testInflection pattern s)
    with (fun pattern => existsb (fun w => Validator.leads w s) pattern).
  rewrite existsb_concat.
  change (concat Validator.nonImperativePatterns)
    with (map fst Validator.imperativeRewrites).
  reflexivity.
Qed.

(** X6.  [toImperative] always returns a subject that [isImperative]
    accepts; it leaves a subject unchanged exactly when [isImperative]
    accepts it already; and applying it twice changes nothing more. *)
Theorem toImperative_isImperative (subject : str) :
  Validator.isImperative (Validator.toImperative subject) = true
  /\ (Validator.isImperative subject = true
      <-> Validator.toImperative subject = subject)
  /\ Validator.toImperative (Validator.toImperative subject)
     = Validator.toImperative subject.
Proof.
  assert (Hfixed : forall s, Validator.isImperative s = true ->
                             Validator.toImperative s = s).
  { intros s H. rewrite isImperative_leads in H.
    apply negb_true_iff in H.
    destruct (fold_rewrite_cases Validator.imperativeRewrites s
                (incl_refl _)) as [[_ Hfold] | (e & He & Hl & _)];
      [exact Hfold|].
    exfalso. assert (Htrue : existsb (fun e => Validator.leads (fst e) s)
                               Validator.imperativeRewrites = true).
    { apply existsb_exists. now exists e. }
    congruence. }
  assert (Hdone : forall s,
            Validator.isImperative (Validator.toImperative s) = true).
  { intros s.
    destruct (fold_rewrite_cases Validator.imperativeRewrites s
                (incl_refl _)) as [[Hnone Hfold] | (e & He & _ & Hfold)];
      unfold Validator.toImperative; fold rewriteStep; rewrite Hfold;
      rewrite isImperative_leads; apply negb_true_iff;
      apply not_true_is_false; intros Hex;
      apply existsb_exists in Hex as (e' & He' & Hl').
    - rewrite Forall_forall in Hnone. rewrite (Hnone e' He') in Hl'.
      discriminate.
    - rewrite (leads_mismatch (fst e') (snd e) _
                 (rewrites_settled e' e He' He)) in Hl'. discriminate. }
  split; [apply Hdone|]. split.
  - split; [apply Hfixed|]. intros H. rewrite <- H. apply Hdone.
  - apply Hfixed, Hdone.
Qed.

Lemma canonicalize_lower (c : ascii) :
  canonicalize (toLowerCase_char c) = canonicalize c
  /\ isSpace (toLowerCase_char c) = isSpace c.
Proof.
  destruct c as [[] [] [] [] [] [] [] []]; split; vm_compute; reflexivity.
Qed.

Lemma leads_lower (w s : str) :
  Validator.leads w (toLowerCase s) = Validator.leads w s.
Proof.
  unfold Validator.leads, toLowerCase. f_equal.
  - revert s. induction w as [|a w IH]; intros [|b s]; simpl;
      try reflexivity.
    unfold eqb_ci. rewrite (proj1 (canonicalize_lower b)). now rewrite IH.
  - rewrite skipn_map. destruct (skipn (length w) s) as [|c rest];
      [reflexivity|]. simpl. apply canonicalize_lower.
Qed.

(** X7.  [isImperative] does not depend on the case of the subject. *)
Theorem isImperative_ignores_case (subject : str) :
  Validator.isImperative (toLowerCase subject)
  = Validator.isImperative subject.
Proof.
  rewrite !isImperative_leads. f_equal.
  induction Validator.imperativeRewrites as [|e table IH]; simpl;
    [reflexivity|].
  now rewrite leads_lower, IH.
Qed.

(* ================================================================== *)
(** ** parse, and parse after format                                   *)
(* ================================================================== *)

Lemma join_split (s : str) : join [nl] (split nl s) = s.
Proof.
  induction s as [|c s IH]; simpl; [reflexivity|].
  destruct (split nl s) as [|l ls] eqn:Hs; [now destruct (split_not_nil nl s)|].
  destruct (Ascii.eqb c nl) eqn:Hc.
  - apply Ascii.eqb_eq in Hc; subst c.
    rewrite join_cons. cbn [app]. now rewrite IH.
  - destruct ls as [|l' ls].
    + cbn [join] in *. now rewrite IH.
    + rewrite join_cons in *. cbn [app]. now rewrite IH.
Qed.

Lemma occursIn_trans (p s t : str) : occursIn p s -> occursIn s t -> occursIn p t.
Proof.
  intros (a & b & ->) (a' & b' & ->).
  exists (a' ++ a), (b ++ b'). now rewrite <- !app_assoc.
Qed.

Lemma dropWhile_suffix (p : ascii -> bool) (s : str) :
  exists a, s = a ++ dropWhile p s.
Proof.
  induction s as [|c s [a IH]]; simpl; [now exists []|].
  destruct (p c); [|now exists []].
  exists (c :: a). simpl. now f_equal.
Qed.

Lemma trim_occursIn (s : str) : occursIn (trim s) s.
Proof.
  unfold trim, trimStart, trimEnd.
  destruct (dropWhile_suffix isSpace s) as [a Ha].
  destruct (dropWhile_suffix isSpace (rev (dropWhile isSpace s))) as [b Hb].
  exists a, (rev b). rewrite Ha at 1. f_equal.
  rewrite <- (rev_involutive (dropWhile isSpace s)) at 1.
  rewrite Hb at 1. now rewrite rev_app_distr.
Qed.

Lemma join_skipn_occursIn (k : nat) (lines : list str) :
  occursIn (join [nl] (skipn k lines)) (join [nl] lines).
Proof.
  revert lines. induction k as [|k IH]; intros lines.
  - exists [], []. simpl. now rewrite app_nil_r.
  - destruct lines as [|l rest]; [exists [], []; reflexivity|].
    simpl skipn. destruct rest as [|l' rest].
    + destruct k; exists l, []; simpl; now rewrite app_nil_r.
    + destruct (IH (l' :: rest)) as (a & b & Hab).
      exists (l ++ nl :: a), b. rewrite join_cons, Hab.
      now rewrite <- app_assoc.
Qed.

(** X8.  [parse] flags a message as breaking only when the text
    "BREAKING CHANGE:" occurs in the message. *)
Theorem parse_breaking_needs_marker (message : str) (r : Validator.ParsedMessage) :
  Validator.parse message = Some r ->
  Validator.breaking r = true ->
  includes (js "BREAKING CHANGE:") message = true.
Proof.
  unfold Validator.parse.
  destruct (Validator.conventionalPattern _) as [[[type scope] subject]|];
    [|discriminate].
  destruct (Validator.bodyStartIndex _) as [start|];
    [|intros H; inversion H; discriminate].
  destruct (findIndex _ _) as [k|];
    [|intros H; inversion H; discriminate].
  intros H; inversion H; subst r; clear H. simpl Validator.breaking.
  rewrite !includes_occurrence. intros Hin.
  apply (occursIn_trans _ _ _ Hin).
  apply (occursIn_trans _ _ _ (trim_occursIn _)).
  apply (occursIn_trans _ _ _ (join_skipn_occursIn k _)).
  rewrite <- (join_split message) at 2.
  apply join_skipn_occursIn.
Qed.

Lemma parse_breaking_needs_marker_witness :
  includes (js "BREAKING CHANGE:")
    (join [nl] [js "feat: add login"; []; js "BREAKING CHANGE: new endpoint"])
  = true.
Proof.
  eapply (parse_breaking_needs_marker
            (join [nl] [js "feat: add login"; [];
                        js "BREAKING CHANGE: new endpoint"])).
  - reflexivity.
  - reflexivity.
Defined.

(** [parse] on a message given by its lines: the header, lines that are not
    blank, a blank line and a block that is not empty. *)
Lemma parse_lines_block
  (message header blankLine type subject : str) (scope : option str)
  (before block : list str) :
  split nl message = header :: before ++ blankLine :: block ->
  Validator.conventionalPattern header = Some (type, scope, subject) ->
  Forall (fun l => ~ blank l) before -> blank blankLine -> block <> [] ->
  Validator.parse message = Some (parsedFrom type scope subject block).
Proof.
  intros Hsplit Hmatch Hbefore Hblank Hblock.
  assert (Hstart : Validator.bodyStartIndex (header :: before ++ blankLine :: block)
                   = Some (1 + length before + 1)).
  { unfold Validator.bodyStartIndex. simpl skipn.
    apply bodyStart_from_blank; try assumption.
    simpl. rewrite length_app. simpl.
    destruct block; [congruence | simpl; lia]. }
  assert (Hskip : skipn (1 + length before + 1)
                    (header :: before ++ blankLine :: block) = block).
  { replace (1 + length before + 1)
      with (length (header :: before ++ [blankLine]))
      by (simpl; rewrite length_app; simpl; lia).
    replace (header :: before ++ blankLine :: block)
      with ((header :: before ++ [blankLine]) ++ block)
      by (simpl; now rewrite <- app_assoc).
    apply skipn_length_app. }
  unfold Validator.parse, parsedFrom. rewrite Hsplit. simpl hd.
  rewrite Hmatch, Hstart, Hskip.
  now destruct (findIndex Validator.isFooterStart block).
Qed.

(** The lines of a formatted message. *)
Lemma format_lines (c : Formatter.CommitComponents) :
  wellFormedHeader c ->
  split nl (Formatter.format c)
  = headerOf c :: concat (map (split nl) (trailer c)).
Proof.
  intros (Htype & Hscope & Hsubject).
  rewrite format_parts, split_join. cbn [map concat].
  now rewrite (split_line nl _ (headerOf_isLine c Htype Hscope Hsubject)).
Qed.

(** The trailer is empty, or it starts with the blank line that [format]
    pushes before the first part. *)
Lemma trailer_shape (c : Formatter.CommitComponents) :
  trailer c = [] \/ exists rest, trailer c = [] :: rest /\ rest <> [].
Proof.
  unfold trailer.
  destruct (truthy (Formatter.body c)), (truthy (Formatter.breaking c)),
    (truthy (Formatter.footer c)); simpl;
    try (left; reflexivity); right; eexists; split;
    try reflexivity; discriminate.
Qed.

Lemma concat_split_not_nil (parts : list str) :
  parts <> [] -> concat (map (split nl) parts) <> [].
Proof.
  destruct parts as [|p parts]; [congruence|]. intros _. simpl.
  destruct (split nl p) eqn:Hp; [now destruct (split_not_nil nl p)|].
  discriminate.
Qed.

(** [parse] after [format], when the message has parts after the header. *)
Lemma parse_format_block (c : Formatter.CommitComponents) (rest : list str) :
  wellFormedHeader c -> trailer c = [] :: rest -> rest <> [] ->
  Validator.parse (Formatter.format c)
  = Some (parsedFrom (Formatter.type c) (Formatter.scope c)
            (Formatter.subject c) (concat (map (split nl) rest))).
Proof.
  intros Hwf Htrailer Hrest.
  apply (parse_lines_block _ (headerOf c) [] _ _ _ []).
  - rewrite (format_lines c Hwf), Htrailer. reflexivity.
  - destruct Hwf as (Htype & Hscope & Hsubject).
    now apply conventionalPattern_headerOf.
  - constructor.
  - reflexivity.
  - now apply concat_split_not_nil.
Qed.

(** X9.  The header survives the round trip whatever follows it: for
    components with a well-formed header, and any body, breaking description
    and footer, [parse(format(c))] is an object with the type, scope and
    subject of [c]. *)
Theorem parse_format_header (c : Formatter.CommitComponents) :
  wellFormedHeader c -> headerRoundTrip c.
Proof.
  intros Hwf. unfold headerRoundTrip.
  destruct (trailer_shape c) as [Hnone | (rest & Htrailer & Hrest)].
  - destruct Hwf as (Htype & Hscope & Hsubject).
    unfold Validator.parse.
    rewrite format_parts, Hnone. cbn [join].
    rewrite (split_line nl _ (headerOf_isLine c Htype Hscope Hsubject)).
    simpl hd. rewrite (conventionalPattern_headerOf c Htype Hscope Hsubject).
    eexists. split; [reflexivity|]. now repeat split.
  - rewrite (parse_format_block c rest Hwf Htrailer Hrest).
    eexists. split; [reflexivity|]. unfold parsedFrom.
    destruct (findIndex _ _); now repeat split.
Qed.

Lemma parse_format_header_witness : headerRoundTrip fullComponents.
Proof.
  apply (parse_format_header fullComponents).
  split; [|split].
  - split; [discriminate | reflexivity].
  - split; [discriminate | reflexivity].
  - split; reflexivity.
Defined.

Lemma occursIn_rev (p s : str) : occursIn p s -> occursIn (rev p) (rev s).
Proof.
  intros (a & b & ->). exists (rev b), (rev a).
  now rewrite !rev_app_distr, app_assoc.
Qed.

Lemma dropWhile_occursIn (p s : str) :
  match p with x :: _ => isSpace x = false | [] => False end ->
  occursIn p s -> occursIn p (dropWhile isSpace s).
Proof.
  intros Hhead (a & b & ->). induction a as [|c a IH]; simpl.
  - destruct p as [|x q]; [destruct Hhead|]. simpl. rewrite Hhead.
    now exists [], b.
  - destruct (isSpace c); [exact IH|]. now exists (c :: a), b.
Qed.

(** Trimming keeps an occurrence of a text that neither starts nor ends with
    white space. *)
Lemma trim_keeps_occurrence (p s : str) :
  match p with x :: _ => isSpace x = false | [] => False end ->
  match rev p with y :: _ => isSpace y = false | [] => False end ->
  occursIn p s -> occursIn p (trim s).
Proof.
  intros Hhead Hlast Hocc. unfold trim, trimStart, trimEnd.
  apply (dropWhile_occursIn p s Hhead) in Hocc.
  apply occursIn_rev in Hocc.
  apply (dropWhile_occursIn (rev p) _ Hlast) in Hocc.
  apply occursIn_rev in Hocc. now rewrite rev_involutive in Hocc.
Qed.

Lemma join_occursIn (p l : str) (lines : list str) :
  In l lines -> occursIn p l -> occursIn p (join [nl] lines).
Proof.
  intros Hin Hocc. induction lines as [|x lines IH]; [destruct Hin|].
  destruct lines as [|y lines].
  - destruct Hin as [->|[]]. exact Hocc.
  - rewrite join_cons. destruct Hin as [->|Hin].
    + destruct Hocc as (a & b & ->). exists a, (b ++ nl :: join [nl] (y :: lines)).
      now rewrite <- !app_assoc.
    + destruct (IH Hin) as (a & b & ->). exists (x ++ nl :: a), b.
      now rewrite <- app_assoc.
Qed.

Lemma findIndex_reaches (block : list str) (l : str) :
  In l block -> Validator.isFooterStart l = true ->
  exists k, findIndex Validator.isFooterStart block = Some k
            /\ In l (skipn k block).
Proof.
  intros Hin Hl. induction block as [|x block IH]; [destruct Hin|].
  simpl. destruct (Validator.isFooterStart x) eqn:Hx.
  - exists 0. now split.
  - destruct Hin as [->|Hin]; [congruence|].
    destruct (IH Hin) as (k & -> & Hk). exists (S k). now split.
Qed.

(** The first line of a text that starts with a line-feed-free prefix starts
    with this prefix. *)
Lemma split_prefix (prefix s : str) :
  isLine prefix ->
  exists l ls, split nl (prefix ++ s) = (prefix ++ l) :: ls.
Proof.
  unfold isLine. induction prefix as [|a prefix IH]; simpl; intros H.
  - destruct (split nl s) as [|l ls] eqn:Hs; [now destruct (split_not_nil nl s)|].
    now exists l, ls.
  - apply andb_prop in H as [Ha H]. apply negb_true_iff in Ha. rewrite Ha.
    destruct (IH H) as (l & ls & ->). now exists l, ls.
Qed.

Lemma first_line_in_block (part l : str) (ls : list str) (parts : list str) :
  In part parts -> split nl part = l :: ls ->
  In l (concat (map (split nl) parts)).
Proof.
  intros Hin Hsplit. apply in_concat. exists (split nl part).
  split; [now apply in_map | rewrite Hsplit; now left].
Qed.

(** X10.  A breaking description is never lost: for components with a
    well-formed header and a breaking description, [parse(format(c))] has
    [breaking] true, whatever the body and the footer are. *)
Theorem parse_format_breaking (c : Formatter.CommitComponents) :
  wellFormedHeader c -> truthy (Formatter.breaking c) = true ->
  exists r, Validator.parse (Formatter.format c) = Some r
            /\ Validator.breaking r = true.
Proof.
  intros Hwf Hbreaking.
  set (line := js "BREAKING CHANGE: " ++ Formatter.text (Formatter.breaking c)).
  assert (Htrailer : exists rest, trailer c = [] :: rest /\ In line rest).
  { unfold trailer. rewrite Hbreaking. fold line.
    destruct (truthy (Formatter.body c)), (truthy (Formatter.footer c));
      simpl; eexists; (split; [reflexivity|]); simpl; tauto. }
  destruct Htrailer as (rest & Htrailer & Hin).
  assert (Hrest : rest <> []) by (destruct rest; [destruct Hin | discriminate]).
  rewrite (parse_format_block c rest Hwf Htrailer Hrest).
  eexists. split; [reflexivity|].
  destruct (split_prefix (js "BREAKING CHANGE: ")
              (Formatter.text (Formatter.breaking c)) eq_refl)
    as (l & ls & Hsplit). fold line in Hsplit.
  pose proof (first_line_in_block line _ ls rest Hin Hsplit) as Hblock.
  destruct (findIndex_reaches _ _ Hblock eq_refl) as (k & Hfind & Hk).
  unfold parsedFrom. rewrite Hfind. simpl Validator.breaking.
  apply includes_occurrence.
  apply trim_keeps_occurrence; [reflexivity | reflexivity |].
  apply (join_occursIn _ _ _ Hk).
  exists [], (" "%char :: l). reflexivity.
Qed.

Lemma parse_format_breaking_witness :
  exists r, Validator.parse (Formatter.format fullComponents) = Some r
            /\ Validator.breaking r = true.
Proof.
  apply (parse_format_breaking fullComponents); [|reflexivity].
  split; [|split].
  - split; [discriminate | reflexivity].
  - split; [discriminate | reflexivity].
  - split; reflexivity.
Defined.

Lemma startsWith_first_line (p l t : str) :
  isLine p -> startsWith p (l ++ nl :: t) = startsWith p l.
Proof.
  unfold isLine. revert l. induction p as [|a p IH]; intros l H;
    [now destruct l|].
  simpl in H. apply andb_prop in H as [Ha H]. apply negb_true_iff in Ha.
  destruct l as [|b l]; simpl; [now rewrite Ha|]. now rewrite IH.
Qed.

Lemma isFooterStart_first_line (s l : str) (ls : list str) :
  split nl s = l :: ls ->
  Validator.isFooterStart l = Validator.isFooterStart s.
Proof.
  intros Hsplit. rewrite <- (join_split s), Hsplit.
  destruct ls as [|l' ls]; [reflexivity|]. rewrite join_cons.
  unfold Validator.isFooterStart.
  now rewrite !startsWith_first_line by reflexivity.
Qed.

(** X11.  The footer of components without body and breaking description
    comes back from [parse(format(c))] as the footer, trimmed, when it begins
    with "BREAKING CHANGE:", "Closes", "Fixes" or "Refs"; when none of its
    lines begins with one of these four texts (as with "Related to #5" or
    "closes #5"), it comes back as the body and the footer is null. *)
Theorem parse_format_footer (c : Formatter.CommitComponents) :
  let markers := map js ["BREAKING CHANGE:"; "Closes"; "Fixes"; "Refs"]%string in
  wellFormedHeader c ->
  truthy (Formatter.body c) = false -> truthy (Formatter.breaking c) = false ->
  truthy (Formatter.footer c) = true ->
  exists r,
    Validator.parse (Formatter.format c) = Some r
    /\ (beginsWithOneOf markers (Formatter.text (Formatter.footer c)) ->
        Validator.body r = None
        /\ Validator.footer r
           = Some (trim (Formatter.text (Formatter.footer c))))
    /\ (Forall (fun l => ~ beginsWithOneOf markers l)
          (split nl (Formatter.text (Formatter.footer c))) ->
        Validator.body r = orNull (trim (Formatter.text (Formatter.footer c)))
        /\ Validator.footer r = None
        /\ Validator.breaking r = false).
Proof.
  intros markers Hwf Hbody Hbreaking Hfooter.
  change markers with footerMarkers. clear markers.
  set (f := Formatter.text (Formatter.footer c)).
  assert (Htrailer : trailer c = [] :: [f]).
  { unfold trailer. now rewrite Hbody, Hbreaking, Hfooter. }
  rewrite (parse_format_block c [f] Hwf Htrailer) by discriminate.
  eexists. split; [reflexivity|]. cbn [map concat]. rewrite app_nil_r.
  unfold parsedFrom. split.
  - intros Hstart. apply isFooterStart_markers in Hstart.
    assert (Hfind : findIndex Validator.isFooterStart (split nl f) = Some 0).
    { destruct (split nl f) as [|l ls] eqn:Hsplit;
        [now destruct (split_not_nil nl f)|].
      simpl. now rewrite (isFooterStart_first_line f l ls Hsplit), Hstart. }
    rewrite Hfind. cbn [firstn skipn]. rewrite join_split.
    split; [reflexivity|]. simpl Validator.footer.
    apply orNull_not_blank. exact (footerStart_not_blank f [] Hstart).
  - intros Hnone. apply not_marker_lines in Hnone.
    rewrite (findIndex_none _ Hnone). simpl.
    rewrite join_split. now repeat split.
Qed.

Lemma footerOnly_wellFormed (footer : str) : wellFormedHeader (footerOnly footer).
Proof.
  split; [|split].
  - split; [discriminate | reflexivity].
  - split; [discriminate | reflexivity].
  - split; reflexivity.
Qed.

(** The theorem at footers that begin with each of the four markers, and at
    two that the prompt accepts and [parse] does not take for a footer. *)
Lemma parse_format_footer_witness :
  footerKept (js "Closes #42") /\ footerKept (js "Fixes #7")
  /\ footerKept (js "Refs #9")
  /\ footerKept (js "BREAKING CHANGE: new endpoint")
  /\ footerTakenAsBody (js "Related to #5")
  /\ footerTakenAsBody (js "closes #5").
Proof.
  assert (Hkept : forall footer,
            truthy (Some footer) = true ->
            Validator.isFooterStart footer = true -> trim footer = footer ->
            footerKept footer).
  { intros footer Htruthy Hstart Htrim.
    destruct (parse_format_footer (footerOnly footer)
                (footerOnly_wellFormed footer) eq_refl eq_refl Htruthy)
      as (r & Hparse & Hfooter & _).
    exists r. split; [exact Hparse|].
    destruct (Hfooter (proj1 (isFooterStart_markers footer) Hstart))
      as [Hb Hf].
    split; [exact Hb|]. rewrite Hf. simpl Formatter.text. now rewrite Htrim. }
  assert (Hbody : forall footer,
            truthy (Some footer) = true ->
            Forall (fun l => Validator.isFooterStart l = false)
              (split nl footer) ->
            orNull (trim footer) = Some footer ->
            footerTakenAsBody footer).
  { intros footer Htruthy Hnone Htrim.
    destruct (parse_format_footer (footerOnly footer)
                (footerOnly_wellFormed footer) eq_refl eq_refl Htruthy)
      as (r & Hparse & _ & Hb).
    exists r. split; [exact Hparse|].
    destruct Hb as (Hb & Hf & _).
    - eapply Forall_impl; [|exact Hnone]. intros l Hl H. simpl in Hl.
      apply isFooterStart_markers in H. congruence.
    - split; [|exact Hf]. rewrite Hb. exact Htrim. }
  repeat split;
    first [ apply Hkept; reflexivity
          | apply Hbody; [reflexivity | repeat constructor | reflexivity] ].
Defined.

(* ================================================================== *)
(** ** wrapText: further properties                                    *)
(* ================================================================== *)

Lemma wrap_fold_nonempty (maxLength : nat) (words : list str)
  (st : list str * str) :
  Forall (fun l => l <> []) (fst st) ->
  Forall (fun l => l <> [])
    (fst (fold_left (Formatter.wrapStep maxLength) words st)).
Proof.
  revert st. induction words as [|word words IH]; intros [lines current] H;
    [exact H|].
  simpl fold_left. apply IH. unfold Formatter.wrapStep.
  destruct (_ <=? maxLength); simpl; [exact H|].
  destruct current as [|c current]; simpl; [exact H|].
  apply Forall_app. split; [exact H | constructor; [discriminate | constructor]].
Qed.

(** X12.  Every line that [wrapText] builds is non-empty, and it is either a
    single word of the text or at most one character longer than
    [maxLength]. *)
Theorem wrapLines_lines (text : str) (maxLength : nat) :
  Forall (fun line =>
            line <> []
            /\ (length line <= maxLength + 1 \/ In line (split sp text)))
    (Formatter.wrapLines text maxLength).
Proof.
  apply Forall_and; [|exact (wrapLines_wrapped text maxLength)].
  unfold Formatter.wrapLines.
  destruct (nonEmpty text); simpl; [|constructor].
  pose proof (wrap_fold_nonempty maxLength (split sp text) ([], [])
                (Forall_nil _)) as H.
  destruct (fold_left (Formatter.wrapStep maxLength) (split sp text) ([], []))
    as [lines current].
  simpl in H. destruct current as [|c current]; simpl; [exact H|].
  apply Forall_app. split; [exact H | constructor; [discriminate | constructor]].
Qed.

Lemma join_split_sep (sep : ascii) (s : str) : join [sep] (split sep s) = s.
Proof.
  induction s as [|c s IH]; simpl; [reflexivity|].
  destruct (split sep s) as [|l ls] eqn:Hs; [now destruct (split_not_nil sep s)|].
  destruct (Ascii.eqb c sep) eqn:Hc.
  - apply Ascii.eqb_eq in Hc; subst c.
    rewrite join_cons. cbn [app]. now rewrite IH.
  - destruct ls as [|l' ls].
    + cbn [join] in *. now rewrite IH.
    + rewrite join_cons in *. cbn [app]. now rewrite IH.
Qed.

(** Two neighbours joined by the separator count as one part. *)
Lemma join_merge (sep : ascii) (before after : list str) (x y : str) :
  join [sep] (before ++ (x ++ sep :: y) :: after)
  = join [sep] (before ++ x :: y :: after).
Proof.
  induction before as [|a before IH]; cbn [app].
  - destruct after as [|z after]; [reflexivity|].
    rewrite !join_cons, <- app_assoc. reflexivity.
  - destruct before as [|b before]; cbn [app] in *.
    + change (a ++ sep :: join [sep] ((x ++ sep :: y) :: after)
              = a ++ sep :: join [sep] (x :: y :: after)).
      now rewrite IH.
    + change (a ++ sep :: join [sep] (b :: before ++ (x ++ sep :: y) :: after)
              = a ++ sep :: join [sep] (b :: before ++ x :: y :: after)).
      now rewrite IH.
Qed.

Lemma wrapStep_flush (maxLength : nat) (st : list str * str) (word : str)
  (rest : list str) :
  word <> [] ->
  join [sp] (flush (Formatter.wrapStep maxLength st word) ++ rest)
  = join [sp] (flush st ++ word :: rest).
Proof.
  intros Hword. destruct st as [lines current]. unfold Formatter.wrapStep, flush.
  destruct (_ <=? maxLength); simpl fst; simpl snd.
  - destruct current as [|c current]; simpl nonEmpty; cbv iota.
    + simpl app. destruct word; [congruence|]. simpl nonEmpty. cbv iota.
      now rewrite app_nil_r, <- app_assoc.
    + simpl app. rewrite <- !app_assoc. simpl app.
      change (c :: current ++ sp :: word) with ((c :: current) ++ sp :: word).
      apply join_merge.
  - destruct word as [|w word]; [congruence|]. simpl nonEmpty. cbv iota.
    destruct current as [|c current]; simpl nonEmpty; cbv iota.
    + now rewrite app_nil_r, <- app_assoc.
    + now rewrite <- !app_assoc.
Qed.

Lemma wrap_fold_flush (maxLength : nat) (words : list str)
  (st : list str * str) :
  Forall (fun w => w <> []) words ->
  join [sp] (flush (fold_left (Formatter.wrapStep maxLength) words st))
  = join [sp] (flush st ++ words).
Proof.
  intros H. revert st. induction H as [|word words Hword _ IH]; intros st.
  - simpl. now rewrite app_nil_r.
  - simpl fold_left. rewrite IH. now apply wrapStep_flush.
Qed.

(** X13.  [wrapText] only turns spaces into line breaks: when no word of the
    text is empty (no space at either end, no two spaces in a row), the lines
    joined by single spaces are the text. *)
Theorem wrapLines_keeps_text (text : str) (maxLength : nat) :
  Forall (fun word => word <> []) (split sp text) ->
  join [sp] (Formatter.wrapLines text maxLength) = text.
Proof.
  intros Hwords. unfold Formatter.wrapLines.
  destruct text as [|c text]; [reflexivity|]. simpl nonEmpty. cbv iota.
  pose proof (wrap_fold_flush maxLength _ ([], []) Hwords) as H.
  change (flush ([], []) ++ split sp (c :: text))
    with (split sp (c :: text)) in H.
  rewrite join_split_sep in H. rewrite <- H at 2. unfold flush.
  destruct (fold_left _ _ _) as [lines current]. simpl fst. simpl snd.
  destruct (nonEmpty current); [reflexivity | now rewrite app_nil_r].
Qed.

Lemma wrapLines_keeps_text_witness :
  join [sp] (Formatter.wrapLines (js "a b c d") 3) = js "a b c d".
Proof.
  apply (wrapLines_keeps_text (js "a b c d") 3).
  repeat constructor; discriminate.
Defined.

(* ================================================================== *)
(** ** autoFormat and the reformatting of runAmend                     *)
(* ================================================================== *)

Lemma autoFormat_subject_length (rawMessage : str) (detectedType : option str) :
  length (Formatter.af_subject (Formatter.autoFormat rawMessage detectedType))
  <= 72.
Proof.
  unfold Formatter.autoFormat. cbn [Formatter.af_subject].
  destruct (72 <? length _) eqn:Hlong.
  - rewrite length_app, length_firstn. simpl length. lia.
  - now apply Nat.ltb_ge in Hlong.
Qed.

(** X14.  The subject that [autoFormat] returns never has more than 72
    characters, whatever the message and the detected type. *)
Theorem autoFormat_subject_bound (rawMessage : str) (detectedType : option str) :
  length (Formatter.af_subject (Formatter.autoFormat rawMessage detectedType))
  <= 72.
Proof. apply autoFormat_subject_length. Qed.

Lemma detectIn_key (entries : list (str * list str)) (lowerMessage type : str) :
  Formatter.detectIn entries lowerMessage = Some type ->
  In type (map fst entries).
Proof.
  induction entries as [|[t keywords] entries IH]; simpl; [discriminate|].
  destruct (existsb _ keywords).
  - intros H. inversion H. now left.
  - intros H. right. now apply IH.
Qed.

Lemma autoFormat_type_default (rawMessage : str) (detectedType : option str) :
  truthy detectedType = false ->
  defaultType (Formatter.af_type (Formatter.autoFormat rawMessage detectedType)).
Proof.
  intros Hnone. unfold Formatter.autoFormat. simpl Formatter.af_type.
  rewrite Hnone. unfold Formatter.detectType.
  destruct (Formatter.detectIn _ _) as [t|] eqn:Hdetect.
  - apply detectIn_key in Hdetect.
    assert (Ht : defaultType t /\ nonEmpty t = true).
    { revert Hdetect. simpl.
      intros H. unfold defaultType.
      repeat (destruct H as [<-|H]; [split; [vm_compute; tauto | reflexivity]|]).
      destruct H. }
    destruct Ht as [Ht ->]. exact Ht.
  - vm_compute. tauto.
Qed.

(** X15.  Without a detected type, the type that [autoFormat] returns is
    always one of the default valid types of the validator, and the
    confidence is "medium". *)
Theorem autoFormat_type_valid (rawMessage : str) (detectedType : option str) :
  truthy detectedType = false ->
  In (Formatter.af_type (Formatter.autoFormat rawMessage detectedType))
    (Validator.validTypes defaultValidator)
  /\ Formatter.af_confidence (Formatter.autoFormat rawMessage detectedType)
     = js "medium".
Proof.
  intros Hnone. split.
  - exact (autoFormat_type_default rawMessage detectedType Hnone).
  - unfold Formatter.autoFormat. simpl. now rewrite Hnone.
Qed.

Lemma autoFormat_type_valid_witness :
  In (Formatter.af_type (Formatter.autoFormat (js "Resolve the crash.") None))
    (Validator.validTypes defaultValidator)
  /\ Formatter.af_confidence
       (Formatter.autoFormat (js "Resolve the crash.") None)
     = js "medium".
Proof.
  apply (autoFormat_type_valid (js "Resolve the crash.") None). reflexivity.
Defined.

Lemma dropWhile_head (s : str) :
  headIs (fun c => isSpace c = false) (dropWhile isSpace s).
Proof.
  induction s as [|c s IH]; simpl; [exact I|].
  destruct (isSpace c) eqn:Hc; [exact IH | exact Hc].
Qed.

Lemma headIs_prefix (P : ascii -> Prop) (s t : str) :
  headIs P (s ++ t) -> headIs P s.
Proof. destruct s; [intros _; exact I | exact (fun H => H)]. Qed.

Lemma trim_head (s : str) : headIs (fun c => isSpace c = false) (trim s).
Proof.
  unfold trim, trimEnd, trimStart.
  destruct (dropWhile_suffix isSpace (rev (dropWhile isSpace s))) as [a Ha].
  apply (headIs_prefix _ _ (rev a)).
  rewrite <- rev_app_distr, <- Ha, rev_involutive. apply dropWhile_head.
Qed.

Lemma stripPrefix_head (words : list str) (s : str) :
  headIs (fun c => isSpace c = false) s ->
  headIs (fun c => isSpace c = false) (Formatter.stripPrefix words s).
Proof.
  intros H. induction words as [|w words IH]; simpl; [exact H|].
  destruct (startsWith_ci _ s); [apply dropWhile_head | exact IH].
Qed.

Lemma lower_char_tidy (c : ascii) :
  isSpace c = false -> tidyHead (toLowerCase_char c).
Proof.
  unfold tidyHead.
  destruct c as [[] [] [] [] [] [] [] []]; vm_compute; intros H;
    try discriminate; split; reflexivity.
Qed.

Lemma removelast_head (P : ascii -> Prop) (s : str) :
  headIs P s -> headIs P (removelast s).
Proof.
  destruct s as [|c s]; [exact (fun H => H)|].
  intros H. simpl. destruct s; [exact I | exact H].
Qed.

Lemma autoFormat_subject_head (rawMessage : str) (detectedType : option str) :
  headIs tidyHead
    (Formatter.af_subject (Formatter.autoFormat rawMessage detectedType)).
Proof.
  unfold Formatter.autoFormat. cbn [Formatter.af_subject].
  set (s := Formatter.stripPrefix _ (Formatter.stripPrefix _
              (Formatter.stripPrefix _ (trim rawMessage)))).
  assert (Hs : headIs (fun c => isSpace c = false) s).
  { unfold s. repeat apply stripPrefix_head. apply trim_head. }
  assert (Hlower : headIs tidyHead (Formatter.lowerFirst s)).
  { destruct s as [|c s']; [exact I|]. simpl. now apply lower_char_tidy. }
  assert (Hperiod : headIs tidyHead
                      (Formatter.stripTrailingPeriod (Formatter.lowerFirst s))).
  { unfold Formatter.stripTrailingPeriod.
    destruct (endsWith_char _ _); [now apply removelast_head | exact Hlower]. }
  destruct (72 <? length _); [|exact Hperiod].
  destruct (Formatter.stripTrailingPeriod (Formatter.lowerFirst s));
    [split; reflexivity | exact Hperiod].
Qed.

(** X16.  The subject that [autoFormat] returns never starts with white
    space nor with a character that [toLowerCase] would change. *)
Theorem autoFormat_subject_start (rawMessage : str) (detectedType : option str) :
  headIs tidyHead
    (Formatter.af_subject (Formatter.autoFormat rawMessage detectedType)).
Proof. apply autoFormat_subject_head. Qed.

(** X17.  The message that [runAmend] builds from a commit message is
    accepted by the default validator as soon as the subject that
    [autoFormat] produced has at least 3 characters, holds no line
    terminator, does not end with a period and passes [isImperative]: the
    type, the length limit and the case of the subject never fail. *)
Theorem reformat_accepted (currentMessage : str) :
  let subject :=
    Formatter.af_subject (Formatter.autoFormat currentMessage None) in
  3 <= length subject ->
  Validator.noLineTerminator subject = true ->
  endsWith_char "."%char subject = false ->
  Validator.isImperative subject = true ->
  Validator.validate defaultValidator (Interactive.reformat currentMessage)
  = accepted.
Proof.
  intros subject Hmin Hlt Hperiod Hmood.
  pose proof (autoFormat_subject_head currentMessage None) as Hhead.
  pose proof (autoFormat_subject_length currentMessage None) as Hmax.
  pose proof (autoFormat_type_default currentMessage None eq_refl) as Htype.
  fold subject in Hhead, Hmax.
  change (Interactive.reformat currentMessage)
    with (Formatter.format
            {| Formatter.type :=
                 Formatter.af_type (Formatter.autoFormat currentMessage None);
               Formatter.scope := None; Formatter.subject := subject;
               Formatter.body := None; Formatter.breaking := None;
               Formatter.footer := None |}).
  set (type := Formatter.af_type _) in *. clearbody subject type.
  set (c := {| Formatter.type := type |}).
  assert (Hne : subject <> [])
    by (destruct subject; [simpl in Hmin; lia | discriminate]).
  assert (Hplain : plainSubject (Formatter.subject c)).
  { split; [|exact Hlt]. simpl.
    destruct subject; [congruence | apply Hhead]. }
  assert (Hstated : statedSubject (Formatter.subject c)).
  { simpl. repeat split; try assumption.
    destruct subject; [exact I | apply Hhead]. }
  destruct (defaultType_token _ Htype) as [Htoken _].
  rewrite format_parts. change (trailer c) with (@nil str). cbn [join].
  rewrite validate_not_blank.
  - rewrite (split_line nl _ (headerOf_isLine c Htoken I Hplain)). cbn [hd].
    rewrite (validateHeader_headerOf c Htype I Hstated Hplain Hmin).
    reflexivity.
  - unfold headerOf. now apply token_not_blank.
Qed.

Lemma reformat_accepted_witness :
  Validator.validate defaultValidator
    (Interactive.reformat (js "Resolve the crash at login."))
  = accepted.
Proof.
  apply (reformat_accepted (js "Resolve the crash at login."));
    [vm_compute; lia | reflexivity | reflexivity | reflexivity].
Defined.

(* ================================================================== *)
(** ** suggestScope                                                    *)
(* ================================================================== *)

Lemma span_stops (p : ascii -> bool) (s a b : str) (c : ascii) :
  span p s = (a, c :: b) -> p c = false.
Proof.
  revert a. induction s as [|x s IH]; simpl; intros a H; [discriminate|].
  destruct (p x) eqn:Hx.
  - destruct (span p s) as [a' b'] eqn:Hs. inversion H; subst.
    now apply (IH a').
  - inversion H; subst. exact Hx.
Qed.

Lemma firstSegment_Some (path segment : str) :
  Formatter.firstSegment path = Some segment ->
  segment <> [] /\ noSlash segment
  /\ exists rest, path = segment ++ Formatter.slash :: rest.
Proof.
  unfold Formatter.firstSegment.
  destruct (span _ path) as [seg rest] eqn:Hspan.
  destruct seg as [|c seg]; [discriminate|].
  destruct rest as [|d rest]; [discriminate|].
  intros H; inversion H; subst segment.
  pose proof (span_stops _ _ _ _ _ Hspan) as Hd.
  apply negb_false_iff, Ascii.eqb_eq in Hd. subst d.
  apply span_eq in Hspan as [-> Hseg].
  split; [discriminate|]. split; [exact Hseg | now exists rest].
Qed.

Lemma scopeOfPatterns_in (patterns : list ((str -> bool) * str))
  (files : list str) (scope : str) :
  Formatter.scopeOfPatterns patterns files = Some scope ->
  In scope (map snd patterns).
Proof.
  induction patterns as [|[pattern sc] patterns IH]; simpl; [discriminate|].
  destruct (existsb pattern files).
  - intros H; inversion H. now left.
  - intros H. right. now apply IH.
Qed.

(** What a suggestion is, when there is one. *)
Lemma suggestScope_Some (changedFiles : list str) (scope : str) :
  Formatter.suggestScope changedFiles = Some scope ->
  scope <> [] /\ noSlash scope
  /\ (In scope (map js ["api"; "ui"; "db"; "auth"; "test"; "docs"; "deps";
                        "config"]%string)
      \/ exists firstFile others rest,
           changedFiles = firstFile :: others
           /\ (firstFile = scope ++ js "/" ++ rest
               \/ firstFile = js "src/" ++ scope ++ js "/" ++ rest)).
Proof.
  unfold Formatter.suggestScope.
  destruct changedFiles as [|firstFile others]; [discriminate|].
  destruct (Formatter.scopeOfPatterns _ _) as [sc|] eqn:Hpatterns.
  - intros H; inversion H; subst sc. apply scopeOfPatterns_in in Hpatterns.
    assert (Hin : In scope (map js ["api"; "ui"; "db"; "auth"; "test"; "docs";
                                    "deps"; "config"]%string))
      by exact Hpatterns.
    split; [|split; [|now left]];
      simpl in Hin;
      repeat (destruct Hin as [<-|Hin]; [first [discriminate | reflexivity]|]);
      destruct Hin.
  - unfold Formatter.firstDirectory.
    destruct (startsWith (js "src/") firstFile) eqn:Hsrc.
    + apply startsWith_prefix in Hsrc as [tail ->].
      change (skipn 4 (js "src/" ++ tail)) with tail.
      destruct (Formatter.firstSegment tail) as [seg|] eqn:Htail.
      * intros H; inversion H; subst seg.
        apply firstSegment_Some in Htail as (Hne & Hslash & rest & ->).
        split; [exact Hne|]. split; [exact Hslash|]. right.
        exists (js "src/" ++ scope ++ Formatter.slash :: rest), others, rest.
        split; [reflexivity | now right].
      * intros H. apply firstSegment_Some in H as (Hne & Hslash & rest & Heq).
        split; [exact Hne|]. split; [exact Hslash|]. right.
        exists (js "src/" ++ tail), others, rest.
        split; [reflexivity | left; exact Heq].
    + intros H. apply firstSegment_Some in H as (Hne & Hslash & rest & ->).
      split; [exact Hne|]. split; [exact Hslash|]. right.
      exists (scope ++ Formatter.slash :: rest), others, rest.
      split; [reflexivity | now left].
Qed.

Lemma scopeOfPatterns_unmatched (patterns : list ((str -> bool) * str))
  (files : list str) :
  (forall pattern file,
     In pattern patterns -> In file files -> fst pattern file = false) ->
  Formatter.scopeOfPatterns patterns files = None.
Proof.
  induction patterns as [|[q sc] patterns IH]; intros H; [reflexivity|].
  simpl. replace (existsb q files) with false.
  - apply IH. intros pattern file Hp. apply H. now right.
  - symmetry. apply not_true_is_false. intros Hex.
    apply existsb_exists in Hex as (file & Hfile & Hq).
    pose proof (H (q, sc) file (or_introl eq_refl) Hfile) as Hno.
    simpl in Hno. congruence.
Qed.

Lemma firstSegment_directory (segment rest : str) :
  segment <> [] -> noSlash segment ->
  Formatter.firstSegment (segment ++ Formatter.slash :: rest) = Some segment.
Proof.
  intros Hne Hslash. unfold Formatter.firstSegment.
  rewrite (span_stop _ segment (Formatter.slash :: rest) Hslash eq_refl).
  destruct segment; [congruence | reflexivity].
Qed.

Lemma firstSegment_none (path : str) :
  noSlash path \/ (exists t, path = Formatter.slash :: t) ->
  Formatter.firstSegment path = None.
Proof.
  unfold Formatter.firstSegment. intros [Hslash | [t ->]].
  - rewrite <- (app_nil_r path) at 1.
    rewrite (span_stop _ path [] Hslash I). now destruct path.
  - reflexivity.
Qed.

(** X18.  A scope suggested by [suggestScope] is never empty and holds no
    slash: it is one of the eight scopes of the patterns, or it is read from
    the first file.  When no file matches a pattern, the first file decides:
    "src/" followed by a directory gives this directory; "src/" followed by
    no directory (as "src/foo.js") gives "src"; a path that does not begin
    with "src/" gives its first directory, and null when it has none.  An
    empty list gives null. *)
Theorem suggestScope_result :
  Formatter.suggestScope [] = None
  /\ (forall changedFiles scope,
        Formatter.suggestScope changedFiles = Some scope ->
        scope <> [] /\ noSlash scope
        /\ (In scope (map js ["api"; "ui"; "db"; "auth"; "test"; "docs";
                              "deps"; "config"]%string)
            \/ exists firstFile others rest,
                 changedFiles = firstFile :: others
                 /\ (firstFile = scope ++ js "/" ++ rest
                     \/ firstFile = js "src/" ++ scope ++ js "/" ++ rest)))
  /\ (forall firstFile others,
        (forall pattern file,
           In pattern Formatter.scopePatterns ->
           In file (firstFile :: others) -> fst pattern file = false) ->
        (forall directory rest,
           directory <> [] -> noSlash directory ->
           firstFile = js "src/" ++ directory ++ js "/" ++ rest ->
           Formatter.suggestScope (firstFile :: others) = Some directory)
        /\ (forall tail,
              firstFile = js "src/" ++ tail ->
              noSlash tail \/ (exists t, tail = js "/" ++ t) ->
              Formatter.suggestScope (firstFile :: others) = Some (js "src"))
        /\ (forall directory rest,
              ~ beginsWith (js "src/") firstFile ->
              directory <> [] -> noSlash directory ->
              firstFile = directory ++ js "/" ++ rest ->
              Formatter.suggestScope (firstFile :: others) = Some directory)
        /\ (~ beginsWith (js "src/") firstFile ->
            noSlash firstFile \/ (exists t, firstFile = js "/" ++ t) ->
            Formatter.suggestScope (firstFile :: others) = None)).
Proof.
  split; [reflexivity|]. split; [exact suggestScope_Some|].
  intros firstFile others Hunmatched.
  assert (Hfallback : Formatter.suggestScope (firstFile :: others)
                      = Formatter.firstDirectory firstFile).
  { unfold Formatter.suggestScope.
    now rewrite (scopeOfPatterns_unmatched _ _ Hunmatched). }
  rewrite Hfallback. unfold Formatter.firstDirectory.
  assert (Hnot : ~ beginsWith (js "src/") firstFile ->
                 startsWith (js "src/") firstFile = false).
  { intros H. apply not_true_is_false. intros Hs.
    now apply startsWith_prefix in Hs. }
  split; [|split; [|split]].
  - intros directory rest Hne Hslash ->.
    replace (startsWith (js "src/") (js "src/" ++ directory ++ js "/" ++ rest))
      with true by (symmetry; apply startsWith_prefix; now eexists).
    change (skipn 4 (js "src/" ++ directory ++ js "/" ++ rest))
      with (directory ++ Formatter.slash :: rest).
    now rewrite (firstSegment_directory directory rest Hne Hslash).
  - intros tail -> Htail.
    replace (startsWith (js "src/") (js "src/" ++ tail))
      with true by (symmetry; apply startsWith_prefix; now eexists).
    change (skipn 4 (js "src/" ++ tail)) with tail.
    rewrite (firstSegment_none tail Htail).
    exact (firstSegment_directory (js "src") tail
             ltac:(discriminate) eq_refl).
  - intros directory rest Hsrc Hne Hslash Hfile.
    rewrite (Hnot Hsrc), Hfile.
    exact (firstSegment_directory directory rest Hne Hslash).
  - intros Hsrc Hfile. rewrite (Hnot Hsrc).
    exact (firstSegment_none firstFile Hfile).
Qed.

Lemma suggestScope_result_witness :
  Formatter.suggestScope [js "src/payments/x.ts"; js "lib/util.js"]
  = Some (js "payments")
  /\ Formatter.suggestScope [js "src/foo.js"] = Some (js "src")
  /\ Formatter.suggestScope [js "lib/util.js"; js "src/payments/x.ts"]
     = Some (js "lib")
  /\ Formatter.suggestScope [js "index.js"] = None.
Proof.
  assert (Hunmatched : forall files,
            forallb (fun pattern => negb (existsb (fst pattern) files))
              Formatter.scopePatterns = true ->
            forall pattern file,
              In pattern Formatter.scopePatterns -> In file files ->
              fst pattern file = false).
  { intros files H pattern file Hp Hf. rewrite forallb_forall in H.
    specialize (H pattern Hp). apply negb_true_iff in H.
    apply not_true_is_false. intros Hm.
    assert (existsb (fst pattern) files = true)
      by (apply existsb_exists; now exists file).
    congruence. }
  pose proof (Hunmatched [js "src/payments/x.ts"; js "lib/util.js"] eq_refl)
    as H1.
  pose proof (Hunmatched [js "src/foo.js"] eq_refl) as H2.
  pose proof (Hunmatched [js "lib/util.js"; js "src/payments/x.ts"] eq_refl)
    as H3.
  pose proof (Hunmatched [js "index.js"] eq_refl) as H4.
  split; [|split; [|split]].
  - apply (proj1 (proj2 (proj2 suggestScope_result) _ _ H1)
             (js "payments") (js "x.ts")); [discriminate | reflexivity..].
  - apply (proj1 (proj2 (proj2 (proj2 suggestScope_result) _ _ H2))
             (js "foo.js")); [reflexivity | left; reflexivity].
  - apply (proj1 (proj2 (proj2 (proj2 (proj2 suggestScope_result) _ _ H3)))
             (js "lib") (js "util.js"));
      [intros [rest H]; discriminate | discriminate | reflexivity..].
  - apply (proj2 (proj2 (proj2 (proj2 (proj2 suggestScope_result) _ _ H4))));
      [intros [rest H]; discriminate | left; reflexivity].
Defined.

Lemma existsb_permutation (A : Type) (p : A -> bool) (l l' : list A) :
  Permutation l l' -> existsb p l = existsb p l'.
Proof.
  intros Hperm.
  destruct (existsb p l) eqn:Hl, (existsb p l') eqn:Hl'; try reflexivity.
  - apply existsb_exists in Hl as (x & Hin & Hx).
    apply (Permutation_in _ Hperm) in Hin.
    assert (existsb p l' = true) by (apply existsb_exists; now exists x).
    congruence.
  - apply existsb_exists in Hl' as (x & Hin & Hx).
    apply (Permutation_in _ (Permutation_sym Hperm)) in Hin.
    assert (existsb p l = true) by (apply existsb_exists; now exists x).
    congruence.
Qed.

Lemma scopeOfPatterns_permutation (patterns : list ((str -> bool) * str))
  (files files' : list str) :
  Permutation files files' ->
  Formatter.scopeOfPatterns patterns files
  = Formatter.scopeOfPatterns patterns files'.
Proof.
  intros Hperm. induction patterns as [|[pattern sc] patterns IH]; simpl;
    [reflexivity|].
  now rewrite (existsb_permutation _ pattern _ _ Hperm), IH.
Qed.

Lemma scopeOfPatterns_matched (patterns : list ((str -> bool) * str))
  (files : list str) (file : str) (pattern : (str -> bool) * str) :
  In pattern patterns -> In file files -> fst pattern file = true ->
  Formatter.scopeOfPatterns patterns files <> None.
Proof.
  intros Hp Hf Hmatch. induction patterns as [|[q sc] patterns IH];
    [destruct Hp|].
  simpl. destruct (existsb q files) eqn:Hq; [discriminate|].
  destruct Hp as [<-|Hp]; [|now apply IH].
  simpl in Hmatch.
  assert (existsb q files = true) by (apply existsb_exists; now exists file).
  congruence.
Qed.

(** X19.  When some changed file matches one of the patterns, the suggestion
    does not depend on the order of the files: only the fallback on the first
    directory looks at which file comes first. *)
Theorem suggestScope_order (changedFiles changedFiles' : list str) :
  Permutation changedFiles changedFiles' ->
  (exists file pattern,
     In file changedFiles /\ In pattern Formatter.scopePatterns
     /\ fst pattern file = true) ->
  Formatter.suggestScope changedFiles = Formatter.suggestScope changedFiles'.
Proof.
  intros Hperm (file & pattern & Hfile & Hpattern & Hmatch).
  pose proof (scopeOfPatterns_matched _ _ _ _ Hpattern Hfile Hmatch) as Hsome.
  pose proof (scopeOfPatterns_permutation Formatter.scopePatterns _ _ Hperm)
    as Heq.
  unfold Formatter.suggestScope.
  destruct changedFiles as [|f fs]; [destruct Hfile|].
  destruct changedFiles' as [|f' fs'];
    [now apply Permutation_sym, Permutation_nil in Hperm|].
  rewrite <- Heq.
  destruct (Formatter.scopeOfPatterns Formatter.scopePatterns (f :: fs));
    [reflexivity | congruence].
Qed.

Lemma suggestScope_order_witness :
  Formatter.suggestScope [js "lib/util.js"; js "src/auth/login.js"]
  = Formatter.suggestScope [js "src/auth/login.js"; js "lib/util.js"].
Proof.
  apply (suggestScope_order [js "lib/util.js"; js "src/auth/login.js"]
           [js "src/auth/login.js"; js "lib/util.js"]).
  - apply perm_swap.
  - exists (js "src/auth/login.js"),
      (fun file => startsWith (js "src/auth/") file, js "auth").
    split; [right; left; reflexivity|].
    split; [do 3 right; left; reflexivity | reflexivity].
Defined.

(* ================================================================== *)
(** ** cleanSubject                                                    *)
(* ================================================================== *)

Lemma collapseSpaces_single (inRun : bool) (s : str) :
  singleSpaced (Formatter.collapseSpaces inRun s) = true
  /\ (inRun = true ->
      headIs (fun c => isSpace c = false) (Formatter.collapseSpaces inRun s)).
Proof.
  revert inRun. induction s as [|c s IH]; intros inRun; simpl.
  - split; [reflexivity | intros _; exact I].
  - destruct (isSpace c) eqn:Hc.
    + destruct inRun.
      * apply IH.
      * destruct (IH true) as [Hsingle Hhead]. specialize (Hhead eq_refl).
        split; [|discriminate]. simpl. rewrite Hsingle.
        destruct (Formatter.collapseSpaces true s) as [|d rest];
          [reflexivity|]. simpl in Hhead. now rewrite Hhead.
    + destruct (IH false) as [Hsingle _]. split; [|intros _; exact Hc].
      simpl. now rewrite Hc, Hsingle.
Qed.

Lemma singleSpaced_tail (c : ascii) (s : str) :
  singleSpaced (c :: s) = true -> singleSpaced s = true.
Proof. simpl. intros H. now apply andb_prop in H as [_ H]. Qed.

Lemma singleSpaced_removelast (s : str) :
  singleSpaced s = true -> singleSpaced (removelast s) = true.
Proof.
  induction s as [|c s IH]; [reflexivity|].
  intros H. destruct s as [|d s]; [reflexivity|].
  change (removelast (c :: d :: s)) with (c :: removelast (d :: s)).
  simpl in H. apply andb_prop in H as [Hc Hrest].
  change (singleSpaced (c :: removelast (d :: s)))
    with ((if isSpace c
           then Ascii.eqb c sp
                && match removelast (d :: s) with
                   | e :: _ => negb (isSpace e)
                   | [] => true
                   end
           else true) && singleSpaced (removelast (d :: s))).
  rewrite (IH Hrest), andb_true_r.
  destruct (isSpace c); [|reflexivity].
  apply andb_prop in Hc as [-> Hd]. destruct s; [reflexivity | exact Hd].
Qed.

Lemma dropWhile_length (p : ascii -> bool) (s : str) :
  length (dropWhile p s) <= length s.
Proof.
  induction s as [|c s IH]; simpl; [lia|]. destruct (p c); simpl; lia.
Qed.

Lemma trim_length (s : str) : length (trim s) <= length s.
Proof.
  unfold trim, trimEnd, trimStart. rewrite length_rev.
  pose proof (dropWhile_length isSpace (rev (dropWhile isSpace s))) as H1.
  pose proof (dropWhile_length isSpace s) as H2.
  rewrite length_rev in H1. lia.
Qed.

Lemma collapseSpaces_length (inRun : bool) (s : str) :
  length (Formatter.collapseSpaces inRun s) <= length s.
Proof.
  revert inRun. induction s as [|c s IH]; intros inRun; simpl; [lia|].
  destruct (isSpace c); [destruct inRun|]; simpl;
    [specialize (IH true) | specialize (IH true) | specialize (IH false)]; lia.
Qed.

Lemma removelast_length (s : str) : length (removelast s) <= length s.
Proof.
  induction s as [|c s IH]; [simpl; lia|].
  destruct s; [simpl; lia|].
  change (removelast (c :: a :: s)) with (c :: removelast (a :: s)).
  simpl in *. lia.
Qed.

(** X20.  In the result of [cleanSubject] every white space character is a
    plain space followed by a character that is not white space, or by the
    end of the text; and the result is never longer than the subject. *)
Theorem cleanSubject_single_spaced (subject : str) :
  singleSpaced (Formatter.cleanSubject subject) = true
  /\ length (Formatter.cleanSubject subject) <= length subject.
Proof.
  unfold Formatter.cleanSubject.
  set (collapsed := Formatter.collapseSpaces false (trim subject)).
  assert (Hc : singleSpaced collapsed = true)
    by apply (collapseSpaces_single false).
  assert (Hlen : length collapsed <= length subject).
  { pose proof (collapseSpaces_length false (trim subject)).
    pose proof (trim_length subject). unfold collapsed. lia. }
  assert (Hq : singleSpaced (Formatter.stripQuotes collapsed) = true
               /\ length (Formatter.stripQuotes collapsed) <= length collapsed).
  { clearbody collapsed. unfold Formatter.stripQuotes. cbv zeta.
    match goal with |- context [rev ?x] => set (s1 := x) end.
    assert (H1 : singleSpaced s1 = true /\ length s1 <= length collapsed).
    { unfold s1. destruct collapsed as [|c rest]; [split; [reflexivity | lia]|].
      destruct (Formatter.isQuote c);
        [split; [now apply (singleSpaced_tail c) | simpl; lia]
        | split; [exact Hc | lia] ]. }
    clearbody s1. destruct H1 as [H1 H1len].
    destruct (rev s1) as [|c r]; [now split|].
    destruct (Formatter.isQuote c); [|now split].
    split; [now apply singleSpaced_removelast|].
    pose proof (removelast_length s1). lia. }
  destruct Hq as [Hq Hqlen]. unfold Formatter.stripTrailingPeriod.
  destruct (endsWith_char _ _).
  - split; [now apply singleSpaced_removelast|].
    pose proof (removelast_length (Formatter.stripQuotes collapsed)). lia.
  - split; [exact Hq | lia].
Qed.

(* ================================================================== *)
(** ** The checks of the prompts against the validator                 *)
(* ================================================================== *)

Lemma isScopeChar_word (c : ascii) :
  Questions.isScopeChar c = true -> isWordOrHyphen c = true.
Proof.
  destruct c as [[] [] [] [] [] [] [] []]; vm_compute; congruence.
Qed.

(** X21.  A custom scope that the prompt accepts never breaks the header:
    written between parentheses after a type made of word characters and
    before a well-formed subject, as [format] does, it is read back by the
    header pattern of the validator. *)
Theorem customScope_accepted (input type subject : str) :
  Questions.customScopeValidate input = Questions.Pass ->
  isToken type -> plainSubject subject ->
  Validator.conventionalPattern
    (type ++ js "(" ++ input ++ js ")" ++ js ": " ++ subject)
  = Some (type, Some input, subject).
Proof.
  unfold Questions.customScopeValidate.
  destruct (_ || _); [discriminate|].
  destruct (nonEmpty input && forallb Questions.isScopeChar input) eqn:Hok;
    [|discriminate].
  intros _ Htype Hsubject. apply andb_prop in Hok as [Hne Hchars].
  assert (Hscope : scopeOK (Some input)).
  { split; [destruct input; [discriminate | discriminate]|].
    exact (forallb_weaken _ _ input isScopeChar_word Hchars). }
  pose proof (conventionalPattern_headerOf
                {| Formatter.type := type; Formatter.scope := Some input;
                   Formatter.subject := subject; Formatter.body := None;
                   Formatter.breaking := None; Formatter.footer := None |}
                Htype Hscope Hsubject) as H.
  unfold headerOf in H. simpl in H. rewrite Hne in H.
  rewrite <- H. do 2 f_equal. cbn [js list_ascii_of_string app].
  f_equal. now rewrite <- app_assoc.
Qed.

Lemma customScope_accepted_witness :
  Validator.conventionalPattern
    (js "feat" ++ js "(" ++ js "My-Scope1" ++ js ")" ++ js ": "
     ++ js "add login")
  = Some (js "feat", Some (js "My-Scope1"), js "add login").
Proof.
  apply (customScope_accepted (js "My-Scope1") (js "feat") (js "add login")).
  - reflexivity.
  - split; [discriminate | reflexivity].
  - split; reflexivity.
Defined.

Lemma validateSubject_default (subject : str) :
  statedSubject subject -> 3 <= length subject ->
  Validator.validateSubject defaultValidator subject = Ok [].
Proof.
  intros (Hne & Hlower & Hmax & Hperiod & Hmood) Hmin.
  unfold Validator.validateSubject. simpl Validator.config.
  cbn [Validator.maxSubjectLength Validator.minSubjectLength
       Validator.enforceImperative Validator.subjectCase Validator.spread
       Validator.override Validator.noOverrides Validator.o_maxSubjectLength
       Validator.o_minSubjectLength Validator.o_enforceImperative
       Validator.o_subjectCase Defaults.rules Defaults.maxSubjectLength
       Defaults.minSubjectLength Defaults.enforceImperative
       Defaults.subjectCase].
  replace (72 <? length subject) with false
    by (symmetry; apply Nat.ltb_ge; exact Hmax).
  replace (length subject <? 3) with false
    by (symmetry; apply Nat.ltb_ge; exact Hmin).
  rewrite Hperiod, Hmood.
  replace (str_eqb (js "lowercase") (js "lowercase")) with true by reflexivity.
  destruct subject as [|c0 s]; [congruence|].
  simpl in Hlower. rewrite Hlower, Ascii.eqb_refl. reflexivity.
Qed.

(** X22.  The prompt and the validator agree on the subject but for the
    minimum length: a subject that went through the filter of the prompt and
    that its check accepts passes every check of [validateSubject] under the
    default configuration as soon as it has at least 3 characters. *)
Theorem subject_prompt_accepted (input : str) :
  let subject := Questions.subjectFilter input in
  Questions.subjectValidate subject = Questions.Pass ->
  3 <= length subject ->
  Validator.validateSubject Questions.validator subject = Ok [].
Proof.
  intros subject Hpass Hmin.
  assert (Hhead : headIs tidyHead subject).
  { unfold subject, Questions.subjectFilter.
    assert (Hl : headIs tidyHead (Formatter.lowerFirst (trim input))).
    { pose proof (trim_head input) as Ht.
      destruct (trim input) as [|c s]; [exact I|]. simpl.
      now apply lower_char_tidy. }
    cbv zeta. unfold Formatter.stripTrailingPeriod.
    destruct (endsWith_char _ _); [now apply removelast_head | exact Hl]. }
  clearbody subject. apply validateSubject_default; [|exact Hmin].
  unfold Questions.subjectValidate in Hpass.
  destruct (_ || _); [discriminate|].
  destruct (72 <? length subject) eqn:Hmax; [discriminate|].
  destruct (endsWith_char _ subject) eqn:Hperiod; [discriminate|].
  destruct (Validator.isImperative subject) eqn:Hmood; [|discriminate].
  apply Nat.ltb_ge in Hmax.
  repeat split; try assumption.
  - destruct subject; [simpl in Hmin; lia | discriminate].
  - destruct subject; [exact I | apply Hhead].
Qed.

Lemma subject_prompt_accepted_witness :
  Validator.validateSubject Questions.validator
    (Questions.subjectFilter (js "  Add the login page. "))
  = Ok [].
Proof.
  apply (subject_prompt_accepted (js "  Add the login page. "));
    [reflexivity | vm_compute; lia].
Defined.

(* ================================================================== *)
(** ** analyzeSubject against validateSubject; the mood switch         *)
(* ================================================================== *)

(** X23.  A subject that [analyzeSubject] finds valid never fails the
    maximum length and the trailing period checks of [validateSubject] under
    the default configuration: the only errors it can get are the one of a
    subject shorter than 3 characters, the one of the mood, and the one of
    the first character, which the two functions test in different ways. *)
Theorem analyzed_subject_validates (subject : str) (a : Formatter.Analysis) :
  Formatter.analyzeSubject subject = Ok a ->
  Formatter.valid a = true ->
  exists errs,
    Validator.validateSubject defaultValidator subject = Ok errs
    /\ Forall (fun e => e = Validator.errTooShort (length subject) 3
                        \/ e = Validator.errImperative
                        \/ e = js "Subject must start with lowercase letter")
         errs.
Proof.
  unfold Formatter.analyzeSubject.
  destruct subject as [|c s]; [discriminate|]. cbn [Result.bind]. cbv zeta.
  destruct (72 <? length (c :: s)) eqn:Hlong,
    (Formatter.nonImperative (c :: s)),
    (Formatter.isOwnUpperCase c),
    (endsWith_char "."%char (c :: s)) eqn:Hperiod;
    intros H; injection H as <-; try discriminate.
  intros _. unfold Validator.validateSubject. simpl Validator.config.
  cbn [Validator.maxSubjectLength Validator.minSubjectLength
       Validator.enforceImperative Validator.subjectCase Validator.spread
       Validator.override Validator.noOverrides Validator.o_maxSubjectLength
       Validator.o_minSubjectLength Validator.o_enforceImperative
       Validator.o_subjectCase Defaults.rules Defaults.maxSubjectLength
       Defaults.minSubjectLength Defaults.enforceImperative
       Defaults.subjectCase].
  rewrite Hlong, Hperiod.
  replace (str_eqb (js "lowercase") (js "lowercase")) with true by reflexivity.
  cbn [Result.bind app].
  eexists. split; [reflexivity|].
  destruct (length (c :: s) <? 3), (negb (Validator.isImperative (c :: s))),
    (negb (Ascii.eqb c (toLowerCase_char c)));
    repeat (constructor;
            [first [left; reflexivity | right; left; reflexivity
                   | right; right; reflexivity]|]);
    constructor.
Qed.

Lemma analyzed_subject_validates_witness :
  exists errs,
    Validator.validateSubject defaultValidator (js "removes the cache")
    = Ok errs
    /\ Forall (fun e => e = Validator.errTooShort
                              (length (js "removes the cache")) 3
                        \/ e = Validator.errImperative
                        \/ e = js "Subject must start with lowercase letter")
         errs.
Proof.
  eapply (analyzed_subject_validates (js "removes the cache")).
  - reflexivity.
  - reflexivity.
Defined.

Lemma validateSubject_no_mood (v : Validator.t) (subject : str) (errs : list str) :
  Validator.enforceImperative (Validator.config v) = false ->
  Validator.validateSubject v subject = Ok errs ->
  ~ In Validator.errImperative errs.
Proof.
  intros Hoff. unfold Validator.validateSubject. rewrite Hoff.
  destruct (_ <? length subject), (length subject <? _),
    (endsWith_char _ subject), (str_eqb _ _), subject as [|c s];
    try discriminate; simpl; try destruct (negb _);
    intros H; inversion H; subst; simpl;
    intros Hin;
    repeat (destruct Hin as [Hin|Hin];
            [apply (f_equal (firstn 14)) in Hin; discriminate|]);
    destruct Hin.
Qed.

(** X24.  With [enforceImperative] set to false, [validate] never reports
    the error of the imperative mood, whatever the message. *)
Theorem mood_check_can_be_disabled (v : Validator.t) (message : str)
  (r : Validator.ValidationResult) :
  Validator.enforceImperative (Validator.config v) = false ->
  Validator.validate v message = Ok r ->
  ~ In Validator.errImperative (Validator.errors r).
Proof.
  intros Hoff. unfold Validator.validate.
  destruct (_ || _).
  - intros H; inversion H; subst. simpl. intros [Hin|[]]. discriminate.
  - unfold Validator.validateHeader.
    destruct (Validator.conventionalPattern _) as [[[type scope] subject]|].
    + destruct (Validator.validateSubject v subject) as [errs|e] eqn:Hsubject;
        [|discriminate].
      cbn [Result.bind]. intros H; inversion H; subst; clear H.
      simpl Validator.errors. rewrite !in_app_iff.
      intros [[Hin | [Hin | Hin]] | Hin].
      * destruct (negb (existsb _ _)); [|destruct Hin].
        destruct Hin as [Heq|[]].
        apply (f_equal (hd sp)) in Heq. discriminate.
      * destruct (negb (str_eqb _ _)); [|destruct Hin].
        destruct Hin as [Heq|[]]. discriminate.
      * exact (validateSubject_no_mood v subject errs Hoff Hsubject Hin).
      * destruct (2 <? _); [|destruct Hin].
        pose proof (validateBody_from_errors v
                      (skipn 2 (split nl message)) 0) as Hbody.
        rewrite Forall_forall in Hbody.
        specialize (Hbody _ Hin). discriminate.
    + cbn [Result.bind]. intros H; inversion H; subst; clear H.
      simpl Validator.errors. cbn [app In].
      intros [Heq | Hin]; [discriminate|].
      destruct (2 <? _); [|destruct Hin].
      pose proof (validateBody_from_errors v
                    (skipn 2 (split nl message)) 0) as Hbody.
      rewrite Forall_forall in Hbody.
      specialize (Hbody _ Hin). discriminate.
Qed.

Lemma mood_check_can_be_disabled_witness :
  ~ In Validator.errImperative
      (Validator.errors
         {| Validator.valid := true; Validator.errors := [] |}).
Proof.
  apply (mood_check_can_be_disabled (Validator.new anyMoodOverrides)
           (js "feat: added feature")); reflexivity.
Defined.
